(** * Trade report: normalisation of the export files and the metrics

    A shallow embedding of [app.py]: the loader [load_and_clean_data] and the
    statistics computed from the column 盈亏 (closed profit/loss).

    Numbers.  A pandas float column is modelled as a list of [float64], where
    [None] is NaN (the null of a numeric column) and [Some q] an exact
    rational.  Rounding and the infinities of IEEE arithmetic are outside this
    model; every division the code performs is shown to have a non-zero
    divisor wherever the model returns a number.  The two square roots of the
    Sharpe ratio are taken in [R]. *)

From Stdlib Require Import Strings.String Strings.Ascii.
From Stdlib Require Import List Bool Arith ZArith QArith Qminmax Lia.
From Stdlib Require Import Sorting.Sorted Sorting.Permutation.
From Stdlib Require Import Reals Qreals Psatz.
Import ListNotations.

Local Open Scope Q_scope.

(** ** Series of floats, as pandas reduces them *)

Module Series.

Definition float64 := option Q.
Definition NaN : float64 := None.
Definition Series := list float64.

(** [x > 0] and [x < 0] on a float; a comparison with NaN is false. *)
Definition Qltb (a b : Q) : bool := negb (Qle_bool b a).

Definition gt0 (x : float64) : bool :=
  match x with Some q => Qltb 0 q | None => false end.

Definition lt0 (x : float64) : bool :=
  match x with Some q => Qltb q 0 | None => false end.

Definition fsub (x y : float64) : float64 :=
  match x, y with Some a, Some b => Some (a - b) | _, _ => None end.

Definition fneg (x : float64) : float64 :=
  match x with Some a => Some (- a) | None => None end.

(** Float division.  NaN propagates.  A zero divisor would give an infinity
    or NaN in numpy; the model has no infinities and answers NaN there.  The
    one use, on line 147, is shown further down never to reach that case. *)
Definition fdiv (x y : float64) : float64 :=
  match x, y with
  | Some a, Some b => if Qeq_bool b 0 then None else Some (a / b)
  | _, _ => None
  end.

(** The non-null values, in order: what every reduction with the default
    [skipna=True] works on. *)
Fixpoint dropna (s : Series) : list Q :=
  match s with
  | [] => []
  | Some q :: t => q :: dropna t
  | None :: t => dropna t
  end.

Definition Qsum (l : list Q) : Q := fold_right Qplus 0 l.

Definition Qcount (l : list Q) : Q := inject_Z (Z.of_nat (length l)).

(** [Series.mean()]: NaN when no value is left after dropping nulls. *)
Definition mean (s : Series) : float64 :=
  match dropna s with
  | [] => None
  | v => Some (Qsum v / Qcount v)
  end.

(** [Series.var()] with the default [ddof=1]: NaN when the count of non-null
    values does not exceed [ddof]. *)
Definition var (s : Series) : float64 :=
  let v := dropna s in
  if (length v <=? 1)%nat then None
  else
    let m := Qsum v / Qcount v in
    Some (Qsum (map (fun x => (x - m) * (x - m)) v) / (Qcount v - 1)).

(** [Series.cumsum()]: a null stays null in the output and is skipped by the
    running sum. *)
Fixpoint cumsum_from (acc : Q) (s : Series) : Series :=
  match s with
  | [] => []
  | None :: t => None :: cumsum_from acc t
  | Some x :: t => Some (acc + x) :: cumsum_from (acc + x) t
  end.

Definition cumsum (s : Series) : Series := cumsum_from 0 s.

(** [Series.cummax()]: same treatment of nulls; [acc] is the running maximum,
    absent before the first non-null value. *)
Fixpoint cummax_from (acc : option Q) (s : Series) : Series :=
  match s with
  | [] => []
  | None :: t => None :: cummax_from acc t
  | Some x :: t =>
      let m := match acc with Some a => Qmax a x | None => x end in
      Some m :: cummax_from (Some m) t
  end.

Definition cummax (s : Series) : Series := cummax_from None s.

(** [a - b] on two series with the same index. *)
Definition ssub (a b : Series) : Series :=
  map (fun p => fsub (fst p) (snd p)) (combine a b).

(** [Series.min()]: the least non-null value, NaN when there is none. *)
Definition smin (s : Series) : float64 :=
  match dropna s with
  | [] => None
  | x :: t => Some (fold_left Qmin t x)
  end.

(** [Series.std()] is the square root of [var]. *)
Definition rfloat := option R.

Definition std (s : Series) : rfloat :=
  option_map (fun v => sqrt (Q2R v)) (var s).

(** [x != 0] on a float: true for NaN. *)
Definition rne0 (x : rfloat) : bool :=
  match x with
  | Some r => if Req_dec_T r 0 then false else true
  | None => true
  end.

(** Division and product of floats in [R]; NaN propagates.  Line 145 divides
    only after its test [!= 0]. *)
Definition rdiv (x y : rfloat) : rfloat :=
  match x, y with Some a, Some b => Some (a / b)%R | _, _ => None end.

Definition rmul (x y : rfloat) : rfloat :=
  match x, y with Some a, Some b => Some (a * b)%R | _, _ => None end.

(** [Series.max()] on an integer series (group sizes): NaN when empty. *)
Definition imax (l : list nat) : option nat :=
  match l with
  | [] => None
  | x :: t => Some (fold_left Nat.max t x)
  end.

End Series.

(** ** The metrics of [app.py], lines 135 and 145 to 152

    [pnl] is the column 盈亏 of [df_trades], row after row in the order the
    loader left them. *)

Module Metrics.
Import Series.

(** Line 135: the column 累计盈亏. *)
Definition cumulative_pnl (pnl : Series) : Series := cumsum pnl.

(** Line 145:
    [mean() / std() * np.sqrt(252) if std() != 0 else 0]. *)
Definition sharpe (pnl : Series) : rfloat :=
  if rne0 (std pnl)
  then rmul (rdiv (option_map Q2R (mean pnl)) (std pnl)) (Some (sqrt 252))
  else Some 0%R.

(** Line 146: the mean of the boolean column [pnl > 0]; NaN on no rows. *)
Definition winrate (pnl : Series) : float64 :=
  match pnl with
  | [] => None
  | _ => Some (inject_Z (Z.of_nat (length (filter gt0 pnl))) /
               inject_Z (Z.of_nat (length pnl)))
  end.

(** Line 147: the rows with [pnl > 0] and those with [pnl < 0]. *)
Definition winners (pnl : Series) : Series := filter gt0 pnl.
Definition losers (pnl : Series) : Series := filter lt0 pnl.

Definition empty {A} (l : list A) : bool :=
  match l with [] => true | _ => false end.

Definition profit_ratio (pnl : Series) : float64 :=
  if negb (empty (losers pnl))
  then fdiv (mean (winners pnl)) (fneg (mean (losers pnl)))
  else NaN.

(** Line 148: [(累计盈亏 - 累计盈亏.cummax()).min()]. *)
Definition drawdowns (pnl : Series) : Series :=
  ssub (cumulative_pnl pnl) (cummax (cumulative_pnl pnl)).

Definition max_drawdown (pnl : Series) : float64 := smin (drawdowns pnl).

(** Line 149: [lambda x: 1 if x > 0 else -1]. *)
Definition classify (x : float64) : Z := if gt0 x then 1%Z else (-1)%Z.

Definition results (pnl : Series) : list Z := map classify pnl.

(** Line 150: [results.ne(results.shift()).cumsum()].  [shift] moves every
    value one row down and leaves NaN in the first row; [ne] against NaN is
    true; the running count of the changes numbers the streaks 1, 2, ... *)
Definition shift (r : list Z) : list (option Z) :=
  match r with
  | [] => []
  | _ :: _ => None :: map Some (removelast r)
  end.

Definition ne (a : list Z) (b : list (option Z)) : list bool :=
  map (fun p => match snd p with
                | Some y => negb (fst p =? y)%Z
                | None => true
                end) (combine a b).

Fixpoint cumsum_bool_from (acc : nat) (l : list bool) : list nat :=
  match l with
  | [] => []
  | b :: t =>
      let acc' := if b then S acc else acc in
      acc' :: cumsum_bool_from acc' t
  end.

Definition streaks (pnl : Series) : list nat :=
  cumsum_bool_from 0 (ne (results pnl) (shift (results pnl))).

(** Lines 151 and 152: [results[mask].groupby(streaks).size().max()].  The
    selection keeps the index, so each kept row still carries its streak
    number; [groupby(...).size()] counts the rows of each key, keys in
    ascending order. *)
Definition select (mask : Z -> bool) (r : list Z) (keys : list nat) : list nat :=
  map snd (filter (fun p => mask (fst p)) (combine r keys)).

Fixpoint bump (k : nat) (g : list (nat * nat)) : list (nat * nat) :=
  match g with
  | [] => [(k, 1%nat)]
  | (k', c) :: t =>
      if (k =? k')%nat then (k', S c) :: t
      else if (k <? k')%nat then (k, 1%nat) :: g
      else (k', c) :: bump k t
  end.

Definition groupby_size (keys : list nat) : list (nat * nat) :=
  fold_right bump [] keys.

Definition win_streak_sizes (pnl : Series) : list nat :=
  map snd (groupby_size (select (fun x => 0 <? x)%Z (results pnl) (streaks pnl))).

Definition loss_streak_sizes (pnl : Series) : list nat :=
  map snd (groupby_size (select (fun x => x <? 0)%Z (results pnl) (streaks pnl))).

Definition max_win_streak (pnl : Series) : option nat :=
  imax (win_streak_sizes pnl).

Definition max_loss_streak (pnl : Series) : option nat :=
  imax (loss_streak_sizes pnl).

(** *** The spec's reading of the same quantities *)

(** Null counts as 0 in a sum. *)
Definition fillna0 (x : float64) : Q :=
  match x with Some q => q | None => 0 end.

Definition prefix_sum (pnl : Series) (i : nat) : Q :=
  Qsum (map fillna0 (firstn (S i) pnl)).

(** The decline of each number of a list from the running peak, [peak] being
    the peak of what came before. *)
Fixpoint declines (peak : Q) (l : list Q) : list Q :=
  match l with
  | [] => []
  | x :: t => (x - Qmax peak x) :: declines (Qmax peak x) t
  end.

(** The maximal runs of equal consecutive values, each with its length. *)
Fixpoint runs (r : list Z) : list (Z * nat) :=
  match r with
  | [] => []
  | x :: t =>
      match runs t with
      | (y, n) :: rs => if (x =? y)%Z then (x, S n) :: rs else (x, 1%nat) :: (y, n) :: rs
      | [] => [(x, 1%nat)]
      end
  end.

Definition expand (rs : list (Z * nat)) : list Z :=
  flat_map (fun p => repeat (fst p) (snd p)) rs.

Definition run_lengths (v : Z) (rs : list (Z * nat)) : list nat :=
  map snd (filter (fun p => (fst p =? v)%Z) rs).

(** The number each row gets when the runs are numbered from [a] on, and the
    numbers of the rows whose value passes [mask]. *)
Fixpoint run_ids (a : nat) (rs : list (Z * nat)) : list nat :=
  match rs with
  | [] => []
  | p :: rs' => repeat a (snd p) ++ run_ids (S a) rs'
  end.

Fixpoint picked (mask : Z -> bool) (a : nat) (rs : list (Z * nat)) : list nat :=
  match rs with
  | [] => []
  | p :: rs' =>
      (if mask (fst p) then repeat a (snd p) else []) ++ picked mask (S a) rs'
  end.

(** Whether a row continues the value [p] of the row before it. *)
Definition same (p : option Z) (x : Z) : bool :=
  match p with Some y => (x =? y)%Z | None => false end.

(** Adjacent runs carry different values: no run can be extended. *)
Fixpoint maximal (rs : list (Z * nat)) : Prop :=
  match rs with
  | p :: (q :: _) as t => fst p <> fst q /\ maximal t
  | _ => True
  end.

End Metrics.

(** ** The loader [load_and_clean_data], lines 94 to 124 *)

Module Normalizer.
Import Series.

Local Open Scope string_scope.

(** A field of a parsed table: its text, or [None] for NaN (an empty field,
    or a column the frame does not have). *)
Definition cell := option string.

(** A row maps column names to fields; a column that is absent reads NaN. *)
Definition Row := list (string * cell).

Record DataFrame := { columns : list string; rows : list Row }.

Definition get (c : string) (r : Row) : cell :=
  match find (fun p => String.eqb (fst p) c) r with
  | Some p => snd p
  | None => None
  end.

Definition has (c : string) (cols : list string) : bool :=
  existsb (String.eqb c) cols.

(** The exceptions the loader can raise. *)
Inductive Error :=
| IndexError
| ValueError
| ParserError
| KeyError (missing : list string).

Inductive result (A : Type) :=
| Ok (a : A)
| Raise (e : Error).
Arguments Ok {A} a.
Arguments Raise {A} e.

Definition bind {A B} (m : result A) (k : A -> result B) : result B :=
  match m with
  | Ok a => k a
  | Raise e => Raise e
  end.

Notation "x <- m ;; k" := (bind m (fun x => k))
  (at level 61, m at next level, right associativity).

Fixpoint mapM {A B} (f : A -> result B) (l : list A) : result (list B) :=
  match l with
  | [] => Ok []
  | a :: t => b <- f a ;; bs <- mapM f t ;; Ok (b :: bs)
  end.

(** The cleaned row, under the column names of line 115.  账户 account,
    方向 side, 品种 symbol, 价格 price, 数量 quantity, 时间 time (as an
    integer count of time units), 手续费 commission, 盈亏 profit/loss. *)
Record Trade := {
  账户 : cell;
  方向 : cell;
  品种 : cell;
  价格 : float64;
  数量 : float64;
  时间 : option Z;
  手续费 : float64;
  盈亏 : float64
}.

(** What the loader takes from pandas.  [read_rows names data] is the body of
    [pd.read_csv(data, names=names)], one list of fields per data row in the
    order of [names], or the parser's exception; [to_datetime] and
    [to_numeric] convert a column with [errors='coerce'], a field that does
    not convert becoming NaT or NaN; [sort_values] is
    [DataFrame.sort_values('时间')] with its default [kind='quicksort']. *)
Record Pandas := {
  read_rows : list string -> list string -> result (list (list cell));
  to_datetime : list cell -> list (option Z);
  to_numeric : list cell -> list float64;
  sort_values : list Trade -> list Trade
}.

(** Ascending order of 时间, nulls last. *)
Definition time_le (a b : Trade) : Prop :=
  match 时间 a, 时间 b with
  | Some x, Some y => (x <= y)%Z
  | _, None => True
  | None, Some _ => False
  end.

(** What pandas documents of the sort: the rows are rearranged into ascending
    order of the key.  It names only the kinds mergesort and stable as stable,
    so nothing is assumed on the order of rows of equal key. *)
Record PandasSpec (P : Pandas) : Prop := {
  sort_values_perm : forall l, Permutation l (sort_values P l);
  sort_values_sorted : forall l, Sorted time_le (sort_values P l)
}.

(** *** Lines 95 to 107: [extract_completed_orders] *)

(** [pat in s]. *)
Fixpoint contains (pat s : string) : bool :=
  match s with
  | EmptyString => prefix pat s
  | String _ s' => prefix pat s || contains pat s'
  end.

(** The loop of lines 98 to 101: [i + 1] for the first line with the marker. *)
Fixpoint find_start (i : nat) (lines : list string) : option nat :=
  match lines with
  | [] => None
  | line :: t =>
      if contains "Completed Orders" line then Some (S i)
      else find_start (S i) t
  end.

Definition quote : ascii := ascii_of_nat 34.

(** [s.replace(quote, '')]. *)
Fixpoint remove_quotes (s : string) : string :=
  match s with
  | EmptyString => EmptyString
  | String c s' =>
      if Ascii.eqb c quote then remove_quotes s' else String c (remove_quotes s')
  end.

(** [s.split(',')]. *)
Fixpoint split_comma (s : string) : list string :=
  match s with
  | EmptyString => [EmptyString]
  | String c s' =>
      if Ascii.eqb c "," then EmptyString :: split_comma s'
      else match split_comma s' with
           | h :: t => String c h :: t
           | [] => [String c EmptyString]
           end
  end.

(** [pd.DataFrame()]. *)
Definition empty_frame : DataFrame := {| columns := []; rows := [] |}.

Definition read_csv (P : Pandas) (names data : list string) : result DataFrame :=
  body <- read_rows P names data ;;
  Ok {| columns := names; rows := map (combine names) body |}.

(** A file is given as its lines, [file.getvalue().decode('utf-8').splitlines()]. *)
Definition extract_completed_orders (P : Pandas) (lines : list string)
  : result DataFrame :=
  match find_start 0 lines with
  | None => Ok empty_frame
  | Some start_index =>
      match nth_error lines start_index with
      | None => Raise IndexError
      | Some line =>
          let header := split_comma (remove_quotes line) in
          read_csv P header (skipn (S start_index) lines)
      end
  end.

(** The header line 104 reads from a file, when it reads one. *)
Definition extracted_header (lines : list string) : option (list string) :=
  match find_start 0 lines with
  | None => None
  | Some start_index =>
      option_map (fun line => split_comma (remove_quotes line))
                 (nth_error lines start_index)
  end.

(** *** Lines 109 to 124 *)

(** [pd.concat(dfs, ignore_index=True)]: the columns are the union of the
    frames' columns in order of first appearance, the rows follow each other;
    an empty list of frames is refused. *)
Definition add_columns (acc new : list string) : list string :=
  fold_left (fun a c => if has c a then a else a ++ [c])%list new acc.

Definition concat (dfs : list DataFrame) : result DataFrame :=
  match dfs with
  | [] => Raise ValueError
  | _ => Ok {| columns := fold_left add_columns (map columns dfs) [];
               rows := flat_map rows dfs |}
  end.

Definition required_columns : list string :=
  [ "Account"; "Buy/Sell"; "Symbol"; "Avg Fill Price"; "Qty To Fill";
    "Update Time (CST)"; "Commission Fill Rate"; "Closed Profit/Loss" ].

(** Line 111: [df_all[df_all['Status'] == 'Filled']]. *)
Definition filled (r : Row) : bool :=
  match get "Status" r with
  | Some s => String.eqb s "Filled"
  | None => false
  end.

Definition filter_filled (df : DataFrame) : result DataFrame :=
  if has "Status" (columns df)
  then Ok {| columns := columns df; rows := filter filled (rows df) |}
  else Raise (KeyError ["Status"]).

(** Lines 112 to 114: selecting a list of columns raises [KeyError] naming
    those the frame lacks. *)
Definition project (df : DataFrame) : result (list Row) :=
  match filter (fun c => negb (has c (columns df))) required_columns with
  | [] => Ok (rows df)
  | missing => Raise (KeyError missing)
  end.

(** Line 117: [.map({'B': 'Buy', 'S': 'Sell'})]. *)
Definition map_side (c : cell) : cell :=
  match c with
  | Some s =>
      if String.eqb s "B" then Some "Buy"
      else if String.eqb s "S" then Some "Sell"
      else None
  | None => None
  end.

Definition fillna (d : Q) (x : float64) : float64 :=
  match x with Some q => Some q | None => Some d end.

(** [df[c]]: the column [c] of a list of rows. *)
Definition column (c : string) (rs : list Row) : list cell := map (get c) rs.

(** Lines 112 to 121: the eight columns are selected, renamed and converted
    one by one; row [i] of the result takes entry [i] of each. *)
Definition clean (P : Pandas) (selected : list Row) : list Trade :=
  let accounts := column "Account" selected in
  let sides := map map_side (column "Buy/Sell" selected) in
  let symbols := column "Symbol" selected in
  let times := to_datetime P (column "Update Time (CST)" selected) in
  let prices := to_numeric P (column "Avg Fill Price" selected) in
  let quantities := to_numeric P (column "Qty To Fill" selected) in
  let fees := map (fillna 0) (to_numeric P (column "Commission Fill Rate" selected)) in
  let pnls := to_numeric P (column "Closed Profit/Loss" selected) in
  map (fun i => {|
         账户 := nth i accounts None;
         方向 := nth i sides None;
         品种 := nth i symbols None;
         价格 := nth i prices None;
         数量 := nth i quantities None;
         时间 := nth i times None;
         手续费 := nth i fees None;
         盈亏 := nth i pnls None
       |}) (seq 0 (length selected)).

Definition notna {A} (x : option A) : bool :=
  match x with Some _ => true | None => false end.

(** Line 122: [dropna(subset=['时间', '价格', '方向'])]. *)
Definition complete (t : Trade) : bool :=
  notna (时间 t) && notna (价格 t) && notna (方向 t).

(** [load_and_clean_data], in three steps: lines 109 to 121 merge the files
    and convert the fields, line 122 drops the incomplete rows, line 123
    sorts. *)
Definition coerced_rows (P : Pandas) (files : list (list string))
  : result (list Trade) :=
  dfs <- mapM (extract_completed_orders P) files ;;
  df_all <- concat dfs ;;
  df_all <- filter_filled df_all ;;
  selected <- project df_all ;;
  Ok (clean P selected).

Definition cleaned_rows (P : Pandas) (files : list (list string))
  : result (list Trade) :=
  rows <- coerced_rows P files ;;
  Ok (filter complete rows).

Definition load_and_clean_data (P : Pandas) (files : list (list string))
  : result (list Trade) :=
  rows <- cleaned_rows P files ;;
  Ok (sort_values P rows).

End Normalizer.

(** ** A small instance of the library interface

    Enough of a reader and of the converters to run the loader on example
    files: fields are separated by commas, numbers and times are written as
    decimal integers, and the sort is by insertion.  [put_before] decides
    whether a row goes in front of one already placed. *)

Module Sample.
Import Series Normalizer.

Local Open Scope string_scope.

Definition field (s : string) : cell :=
  match s with EmptyString => None | _ => Some s end.

Definition sample_read_rows (names data : list string)
  : result (list (list cell)) :=
  Ok (map (fun line => map field (split_comma line)) data).

Definition digit (c : ascii) : option Z :=
  let n := nat_of_ascii c in
  if ((48 <=? n) && (n <=? 57))%nat then Some (Z.of_nat (n - 48)) else None.

Fixpoint digits (acc : Z) (s : string) : option Z :=
  match s with
  | EmptyString => Some acc
  | String c s' =>
      match digit c with
      | Some d => digits (10 * acc + d) s'
      | None => None
      end
  end.

Definition integer (s : string) : option Z :=
  match s with
  | EmptyString => None
  | String "-" (String c s') => option_map Z.opp (digits 0 (String c s'))
  | _ => digits 0 s
  end.

Definition coerce {A} (f : string -> option A) (c : cell) : option A :=
  match c with Some s => f s | None => None end.

Definition sample_to_datetime (col : list cell) : list (option Z) :=
  map (coerce integer) col.

Definition sample_to_numeric (col : list cell) : list float64 :=
  map (coerce (fun s => option_map inject_Z (integer s))) col.

Definition time_leb (a b : Trade) : bool :=
  match 时间 a, 时间 b with
  | Some x, Some y => (x <=? y)%Z
  | _, None => true
  | None, Some _ => false
  end.

Fixpoint insert (put_before : Trade -> Trade -> bool) (x : Trade) (l : list Trade)
  : list Trade :=
  match l with
  | [] => [x]
  | y :: t => if put_before x y then x :: l else y :: insert put_before x t
  end.

Definition insertion_sort (put_before : Trade -> Trade -> bool) (l : list Trade)
  : list Trade :=
  fold_right (insert put_before) [] l.

(** Rows of equal time keep their input order. *)
Definition pandas_keeping_ties : Pandas := {|
  read_rows := sample_read_rows;
  to_datetime := sample_to_datetime;
  to_numeric := sample_to_numeric;
  sort_values := insertion_sort time_leb
|}.

Definition full_header : string :=
  "Account,Status,Buy/Sell,Symbol,Avg Fill Price,Qty To Fill,Update Time (CST),Commission Fill Rate,Closed Profit/Loss".

(** Two fills at the same time 100, then an earlier one. *)
Definition file_ties : list string :=
  [ "Completed Orders"; full_header;
    "A1,Filled,B,ES,10,1,100,2,5";
    "A2,Filled,S,ES,11,1,100,2,7";
    "A3,Filled,B,NQ,12,1,50,2,-3" ].

(** A file whose header has no closed profit/loss column. *)
Definition file_no_pnl : list string :=
  [ "Orders"; "Completed Orders";
    "Account,Status,Buy/Sell,Symbol,Avg Fill Price,Qty To Fill,Update Time (CST),Commission Fill Rate";
    "A4,Filled,S,NQ,13,1,70,2" ].

(** A file with rows the loader drops: not filled, unknown side, no price,
    unreadable time. *)
Definition file_dirty : list string :=
  [ "Completed Orders"; full_header;
    "A1,Cancelled,B,ES,10,1,100,2,5";
    "A2,Filled,X,ES,11,1,101,2,7";
    "A3,Filled,B,NQ,,1,102,2,-3";
    "A4,Filled,S,NQ,13,1,noon,2,1";
    "A5,Filled,S,NQ,14,1,90,,4" ].

Definition trade (acc side sym : string) (price qty time fee : Z) (pnl : float64)
  : Trade := {|
  账户 := Some acc; 方向 := Some side; 品种 := Some sym;
  价格 := Some (inject_Z price); 数量 := Some (inject_Z qty);
  时间 := Some time; 手续费 := Some (inject_Z fee); 盈亏 := pnl
|}.

End Sample.

(** ** The page after the loader: lines 131 to 142

    [df] is [df_trades], the rows the loader returned. *)

Module Page.
Import Series Normalizer.

Local Open Scope string_scope.

(** Equality of two fields as [unique] and [isin] take it: NaN matches NaN. *)
Definition cell_eqb (a b : cell) : bool :=
  match a, b with
  | Some x, Some y => String.eqb x y
  | None, None => true
  | _, _ => false
  end.

(** [Series.unique()]: the distinct values, in order of first appearance. *)
Fixpoint unique (l : list cell) : list cell :=
  match l with
  | [] => []
  | x :: t => x :: filter (fun y => negb (cell_eqb y x)) (unique t)
  end.

Fixpoint insert_str (x : string) (l : list string) : list string :=
  match l with
  | [] => [x]
  | y :: t => if String.leb x y then x :: l else y :: insert_str x t
  end.

Definition sort_str (l : list string) : list string :=
  fold_right insert_str [] l.

(** The texts of a list of fields, when none of them is NaN. *)
Fixpoint strings (l : list cell) : option (list string) :=
  match l with
  | [] => Some []
  | Some x :: t => option_map (cons x) (strings t)
  | None :: _ => None
  end.

(** Python's [sorted] on a list of [str] and NaN, for a symbol column that
    pandas read as text; a column it read as numbers is outside this model.
    Comparing a [str] with NaN (a [float]) raises [TypeError], here [None];
    NaN alone compares false with itself and the list comes back as it is. *)
Definition sorted (l : list cell) : option (list cell) :=
  if forallb (fun c => negb (notna c)) l then Some l
  else option_map (fun ss => map Some (sort_str ss)) (strings l).

(** Line 131: [sorted(df_trades['品种'].unique())]. *)
Definition all_symbols (df : list Trade) : option (list cell) :=
  sorted (unique (map 品种 df)).

(** Line 133: [df_trades[df_trades['品种'].isin(selected_symbols)]]. *)
Definition isin (c : cell) (values : list cell) : bool :=
  existsb (cell_eqb c) values.

Definition select_symbols (selected_symbols : list cell) (df : list Trade)
  : list Trade :=
  filter (fun t => isin (品种 t) selected_symbols) df.

(** Lines 136 and 137: [.dt.date] and [.dt.hour].  时间 counts the
    nanoseconds since the epoch, as [datetime64[ns]] does; a date is given by
    the number of its day. *)
Definition ns_per_hour : Z := 3600000000000.
Definition ns_per_day : Z := 24 * ns_per_hour.

Definition 日期 (t : Trade) : option Z :=
  option_map (fun ns => ns / ns_per_day)%Z (时间 t).

Definition 小时 (t : Trade) : option Z :=
  option_map (fun ns => (ns / ns_per_hour) mod 24)%Z (时间 t).

(** [groupby(key)[value]]: the values of each key, keys in ascending order,
    values in row order; a row whose key is null is in no group. *)
Fixpoint insert_group (k : Z) (x : float64) (g : list (Z * Series))
  : list (Z * Series) :=
  match g with
  | [] => [(k, [x])]
  | (k', vs) :: t =>
      if (k =? k')%Z then (k', x :: vs) :: t
      else if (k <? k')%Z then (k, [x]) :: g
      else (k', vs) :: insert_group k x t
  end.

Definition groupby (keys : list (option Z)) (values : Series)
  : list (Z * Series) :=
  fold_right (fun p g => match fst p with
                         | Some k => insert_group k (snd p) g
                         | None => g
                         end) [] (combine keys values).

(** Line 141: [groupby('日期')['盈亏'].sum()]; the sum of a group skips its
    nulls and is 0 when nothing is left. *)
Definition daily_pnl (df : list Trade) : list (Z * Q) :=
  map (fun g => (fst g, Qsum (dropna (snd g))))
      (groupby (map 日期 df) (map 盈亏 df)).

(** Line 142: [groupby('小时')['盈亏'].mean()]. *)
Definition hourly_avg_pnl (df : list Trade) : list (Z * float64) :=
  map (fun g => (fst g, mean (snd g)))
      (groupby (map 小时 df) (map 盈亏 df)).

(** *** Readings used in the statements below *)

(** The running sums of a list of numbers, from [acc]. *)
Fixpoint sums (acc : Q) (l : list Q) : list Q :=
  match l with
  | [] => []
  | x :: t => (acc + x) :: sums (acc + x) t
  end.

Fixpoint has_char (c : ascii) (s : string) : bool :=
  match s with
  | EmptyString => false
  | String d s' => Ascii.eqb d c || has_char c s'
  end.

Fixpoint count_char (c : ascii) (s : string) : nat :=
  match s with
  | EmptyString => 0
  | String d s' => (if Ascii.eqb d c then 1 else 0) + count_char c s'
  end.

(** A column name as the export writes it, between double quotes. *)
Definition quoted (s : string) : string :=
  String quote (s ++ String quote EmptyString).

(** The order of [str], as a proposition. *)
Definition str_le (a b : string) : Prop := String.leb a b = true.

(** The sum of the sums of the groups. *)
Definition group_total (g : list (Z * Series)) : Q :=
  Qsum (map (fun p => Qsum (dropna (snd p))) g).

(** The columns of the merged table. *)
Definition merged_columns (dfs : list DataFrame) : list string :=
  fold_left add_columns (map columns dfs) [].

End Page.

(** ** The labels of the page: lines 45 to 85 *)

Module Lang.
Import Normalizer.

Local Open Scope string_scope.

Definition LANG_OPTIONS : list (string * list (string * string)) :=
  [ ("中文",
     [ ("title", "📈 自动化交易分析报告生成器");
       ("upload_label", "请上传一个或多个 Rithmic / ATAS 导出的 CSV 文件：");
       ("symbol_select", "选择要分析的品种（可多选）:");
       ("load_success", "已加载 {count} 条成交记录");
       ("pdf_download", "📄 下载账户 {acc} 报告");
       ("metrics", "📌 核心统计");
       ("sharpe", "**夏普比率：**");
       ("winrate", "**胜率：**");
       ("profit_ratio", "**盈亏比：**");
       ("drawdown", "**最大回撤：**");
       ("win_streak", "**最长连续盈利笔数：**");
       ("loss_streak", "**最长连续亏损笔数：**");
       ("snapshot_title", "📊 快照对比分析") ]);
    ("English",
     [ ("title", "📈 Automated Trading Report Generator");
       ("upload_label", "Upload one or more Rithmic / ATAS exported CSV files:");
       ("symbol_select", "Select symbols to analyze:");
       ("load_success", "Loaded {count} filled trades");
       ("pdf_download", "📄 Download Report for {acc}");
       ("metrics", "📌 Key Metrics");
       ("sharpe", "**Sharpe Ratio:**");
       ("winrate", "**Win Rate:**");
       ("profit_ratio", "**Profit Factor:**");
       ("drawdown", "**Max Drawdown:**");
       ("win_streak", "**Longest Win Streak:**");
       ("loss_streak", "**Longest Loss Streak:**");
       ("snapshot_title", "📊 Snapshot Comparison") ]) ].

(** [d[k]]; [None] stands for [KeyError]. *)
Definition getitem {A} (k : string) (d : list (string * A)) : option A :=
  option_map snd (find (fun p => String.eqb (fst p) k) d).

(** Line 82: the choices of the select box, [list(LANG_OPTIONS.keys())]; and
    line 16, what the stand-in side bar answers when streamlit is missing. *)
Definition language_options : list string := map fst LANG_OPTIONS.
Definition dummy_selectbox : string := "中文".

(** The labels the page reads from [lng], lines 85, 90, 129, 132, 144 and
    154 to 159. *)
Definition page_labels : list string :=
  [ "title"; "upload_label"; "load_success"; "symbol_select"; "metrics";
    "sharpe"; "winrate"; "profit_ratio"; "drawdown"; "win_streak";
    "loss_streak" ].

End Lang.

(** * Properties *)

(** ** The cumulative column *)

Module CumulativeFacts.
Import Series Metrics.

Lemma cumsum_from_nth (s : Series) : forall (acc : Q) (i : nat),
  match nth_error s i with
  | None => nth_error (cumsum_from acc s) i = None
  | Some None => nth_error (cumsum_from acc s) i = Some None
  | Some (Some _) =>
      exists c, nth_error (cumsum_from acc s) i = Some (Some c) /\
                c == acc + Qsum (map fillna0 (firstn (S i) s))
  end.
Proof.
  induction s as [|x s IH]; intros acc i.
  - destruct i; reflexivity.
  - destruct i as [|i].
    + destruct x as [q|]; simpl.
      * exists (acc + q). split; [reflexivity|]. ring.
      * reflexivity.
    + destruct x as [q|]; simpl nth_error.
      * specialize (IH (acc + q) i).
        destruct (nth_error s i) as [[y|]|]; try exact IH.
        destruct IH as (c & Hc & Hsum). exists c. split; [exact Hc|].
        rewrite Hsum. change (firstn (S (S i)) (Some q :: s))
          with (Some q :: firstn (S i) s).
        simpl. ring.
      * specialize (IH acc i).
        destruct (nth_error s i) as [[y|]|]; try exact IH.
        destruct IH as (c & Hc & Hsum). exists c. split; [exact Hc|].
        rewrite Hsum. change (firstn (S (S i)) (None :: s))
          with (None :: firstn (S i) s).
        simpl. ring.
Qed.

(** C3, as the code has it.  On a row whose 盈亏 is a number, 累计盈亏 is the
    sum of the 盈亏 values of the rows up to it, nulls counting as 0; on a row
    whose 盈亏 is null, 累计盈亏 is null.  The column has one entry per row. *)
Theorem cumulative_pnl_prefix_sum (pnl : Series) (i : nat) :
  match nth_error pnl i with
  | None => nth_error (cumulative_pnl pnl) i = None
  | Some None => nth_error (cumulative_pnl pnl) i = Some NaN
  | Some (Some _) =>
      exists c, nth_error (cumulative_pnl pnl) i = Some (Some c) /\
                c == prefix_sum pnl i
  end.
Proof.
  unfold cumulative_pnl, cumsum, prefix_sum.
  pose proof (cumsum_from_nth pnl 0 i) as H.
  destruct (nth_error pnl i) as [[y|]|]; try exact H.
  destruct H as (c & Hc & Hsum). exists c. split; [exact Hc|].
  rewrite Hsum. ring.
Qed.

(** C3, as the claim states it, fails on a null row: the second row of
    [1, null, 2] has the prefix sum 1 and a null 累计盈亏. *)
Lemma cumulative_pnl_null_row :
  nth_error (cumulative_pnl [Some 1; None; Some 2]) 1 = Some NaN /\
  prefix_sum [Some 1; None; Some 2] 1 == 1.
Proof. split; reflexivity. Qed.

End CumulativeFacts.

(** ** The maximum drawdown *)

Module DrawdownFacts.
Import Series Metrics.

Lemma dropna_cumsum_from_length (s : Series) : forall acc,
  length (dropna (cumsum_from acc s)) = length (dropna s).
Proof.
  induction s as [|[q|] s IH]; intros acc; simpl; auto.
Qed.

Lemma dropna_ssub_cummax_some (s : Series) : forall m,
  dropna (ssub s (cummax_from (Some m) s)) = declines m (dropna s).
Proof.
  induction s as [|[x|] s IH]; intros m.
  - reflexivity.
  - unfold ssub in *. simpl. f_equal. apply IH.
  - unfold ssub in *. simpl. apply IH.
Qed.

Lemma dropna_ssub_cummax (s : Series) :
  dropna (ssub s (cummax s)) =
  match dropna s with
  | [] => []
  | x :: t => (x - x) :: declines x t
  end.
Proof.
  unfold cummax.
  induction s as [|[x|] s IH].
  - reflexivity.
  - unfold ssub. simpl. f_equal. apply dropna_ssub_cummax_some.
  - unfold ssub in *. simpl. exact IH.
Qed.

Lemma declines_nonpos (l : list Q) : forall m, Forall (fun d => d <= 0) (declines m l).
Proof.
  induction l as [|x l IH]; intros m; cbn [declines]; constructor.
  - cbv beta. pose proof (Q.le_max_r m x). lra.
  - apply IH.
Qed.

Lemma Sorted_Qle_head (a b : Q) (l : list Q) :
  a == b -> Sorted Qle (a :: l) -> Sorted Qle (b :: l).
Proof.
  intros Hab H. inversion H as [|? ? Hs Hh]; subst.
  constructor; [exact Hs|].
  inversion Hh; subst; constructor. lra.
Qed.

(** No decline anywhere exactly when the numbers never fall below what came
    before. *)
Lemma declines_zero_iff (l : list Q) : forall m,
  Forall (fun d => d == 0) (declines m l) <-> Sorted Qle (m :: l).
Proof.
  induction l as [|x l IH]; intros m; cbn [declines].
  - split; intros _; repeat constructor.
  - split.
    + intros H. inversion H as [|? ? Hx Hrest]; subst. cbv beta in Hx.
      apply IH in Hrest.
      assert (Hmx : Qmax m x == x) by lra.
      constructor.
      * apply Sorted_Qle_head with (a := Qmax m x); assumption.
      * constructor. pose proof (Q.le_max_l m x). lra.
    + intros H. inversion H as [|? ? Hs Hh]; subst.
      inversion Hh as [|? ? Hmx]; subst.
      assert (Hmax : Qmax m x == x).
      { destruct (Q.max_spec m x) as [[_ E]|[Hle E]]; lra. }
      constructor; [cbv beta; lra|].
      apply IH. apply Sorted_Qle_head with (a := x); [lra|exact Hs].
Qed.

Lemma fold_Qmin_le (l : list Q) : forall a, fold_left Qmin l a <= a.
Proof.
  induction l as [|y l IH]; intros a; cbn [fold_left].
  - lra.
  - specialize (IH (Qmin a y)). pose proof (Q.le_min_l a y). lra.
Qed.

Lemma fold_Qmin_zero_iff (l : list Q) : forall a,
  a <= 0 -> Forall (fun d => d <= 0) l ->
  (fold_left Qmin l a == 0 <-> a == 0 /\ Forall (fun d => d == 0) l).
Proof.
  induction l as [|y l IH]; intros a Ha Hl; cbn [fold_left].
  - split; [intros H; split; [exact H|constructor] | intros [H _]; exact H].
  - inversion Hl as [|? ? Hy Hl']; subst. cbv beta in Hy.
    assert (Hmin : Qmin a y <= 0) by (pose proof (Q.le_min_l a y); lra).
    rewrite (IH (Qmin a y) Hmin Hl').
    destruct (Q.min_spec a y) as [[Hlt E]|[Hle E]].
    + split.
      * intros [H0 Hall]. split; [lra|]. constructor; [cbv beta; lra|exact Hall].
      * intros [H0 Hall]. inversion Hall as [|? ? Hy0 Hall']; subst.
        cbv beta in Hy0. split; [lra|assumption].
    + split.
      * intros [H0 Hall]. split; [lra|]. constructor; [cbv beta; lra|exact Hall].
      * intros [H0 Hall]. inversion Hall as [|? ? Hy0 Hall']; subst.
        cbv beta in Hy0. split; [lra|assumption].
Qed.

(** C5, as the code has it.  When at least one 盈亏 is a number, the maximum
    drawdown is a number, it is at most 0, and it is 0 exactly when the
    non-null values of 累计盈亏 never decrease. *)
Theorem max_drawdown_sign (pnl : Series) :
  dropna pnl <> [] ->
  exists d, max_drawdown pnl = Some d /\ d <= 0 /\
            (d == 0 <-> Sorted Qle (dropna (cumulative_pnl pnl))).
Proof.
  intros Hne.
  unfold max_drawdown, smin, drawdowns.
  rewrite dropna_ssub_cummax.
  destruct (dropna (cumulative_pnl pnl)) as [|x t] eqn:Ec.
  - exfalso. apply Hne.
    apply (f_equal (@length Q)) in Ec. unfold cumulative_pnl, cumsum in Ec.
    rewrite dropna_cumsum_from_length in Ec.
    destruct (dropna pnl); [reflexivity|discriminate].
  - exists (fold_left Qmin (declines x t) (x - x)).
    split; [reflexivity|].
    assert (Hxx : x - x <= 0) by lra.
    split.
    + pose proof (fold_Qmin_le (declines x t) (x - x)). lra.
    + rewrite (fold_Qmin_zero_iff _ _ Hxx (declines_nonpos t x)).
      rewrite declines_zero_iff.
      split; [intros [_ H]; exact H | intros H; split; [lra|exact H]].
Qed.

Lemma max_drawdown_sign_witness :
  exists d, max_drawdown [Some 10; Some (-5); None; Some 7] = Some d /\ d <= 0 /\
    (d == 0 <->
     Sorted Qle (dropna (cumulative_pnl [Some 10; Some (-5); None; Some 7]))).
Proof.
  apply (max_drawdown_sign [Some 10; Some (-5); None; Some 7]).
  simpl. discriminate.
Defined.

(** C5, as the claim states it, fails on a sequence that is not empty and has
    no 盈亏 that is a number: the maximum drawdown is NaN, which is neither at
    most 0 nor equal to 0, while 累计盈亏 has no decrease. *)
Lemma max_drawdown_all_null :
  max_drawdown [None; None] = NaN /\
  Sorted Qle (dropna (cumulative_pnl [None; None])).
Proof. split; [reflexivity|constructor]. Qed.

(** The example of the spec: [10, -5, -3, 7, 7, -1] has drawdown -8. *)
Example max_drawdown_example :
  max_drawdown [Some 10; Some (-5); Some (-3); Some 7; Some 7; Some (-1)]
  = Some (-8).
Proof. reflexivity. Qed.

End DrawdownFacts.

(** ** Streaks *)

Module StreakFacts.
Import Series Metrics.

Lemma runs_head (x : Z) (t : list Z) :
  exists n rs, runs (x :: t) = (x, S n) :: rs.
Proof.
  simpl. destruct (runs t) as [|[y n] rs].
  - exists 0%nat, []. reflexivity.
  - destruct (x =? y)%Z; eauto.
Qed.

Lemma expand_runs (r : list Z) : expand (runs r) = r.
Proof.
  induction r as [|x t IH]; [reflexivity|].
  simpl. destruct (runs t) as [|[y n] rs] eqn:E.
  - simpl in IH. subst t. reflexivity.
  - destruct (x =? y)%Z eqn:Exy.
    + apply Z.eqb_eq in Exy. subst y.
      unfold expand in *. simpl in *. rewrite IH. reflexivity.
    + unfold expand in *. simpl in *. rewrite IH. reflexivity.
Qed.

Lemma runs_maximal (r : list Z) : maximal (runs r).
Proof.
  induction r as [|x t IH]; [exact I|].
  simpl. destruct (runs t) as [|[y n] rs] eqn:E.
  - exact I.
  - destruct (x =? y)%Z eqn:Exy.
    + apply Z.eqb_eq in Exy. subst y. destruct rs; exact IH.
    + apply Z.eqb_neq in Exy. split; [exact Exy|exact IH].
Qed.

Lemma runs_positive (r : list Z) : Forall (fun p => (1 <= snd p)%nat) (runs r).
Proof.
  induction r as [|x t IH]; [constructor|].
  simpl. destruct (runs t) as [|[y n] rs] eqn:E.
  - repeat constructor.
  - destruct (x =? y)%Z.
    + inversion IH; subst. constructor; [simpl; lia|assumption].
    + constructor; [simpl; lia|exact IH].
Qed.

Lemma runs_values (P : Z -> Prop) (r : list Z) :
  Forall P r -> Forall (fun p => P (fst p)) (runs r).
Proof.
  induction 1 as [|x t Hx Ht IH]; [constructor|].
  simpl. destruct (runs t) as [|[y n] rs] eqn:E.
  - repeat constructor. exact Hx.
  - destruct (x =? y)%Z.
    + inversion IH; subst. constructor; assumption.
    + constructor; assumption.
Qed.

(** Line 150 numbers the rows by their run. *)
Lemma streak_ids (t : list Z) : forall (x : Z) (p : option Z) (acc : nat),
  cumsum_bool_from acc (ne (x :: t) (p :: map Some (removelast (x :: t)))) =
  run_ids (if same p x then acc else S acc) (runs (x :: t)).
Proof.
  induction t as [|y t IH]; intros x p acc.
  - unfold ne. simpl. destruct p as [z|]; simpl.
    + destruct (x =? z)%Z; reflexivity.
    + reflexivity.
  - assert (Hstep :
      cumsum_bool_from acc (ne (x :: y :: t) (p :: map Some (removelast (x :: y :: t)))) =
      (if same p x then acc else S acc) ::
      cumsum_bool_from (if same p x then acc else S acc)
        (ne (y :: t) (Some x :: map Some (removelast (y :: t))))).
    { unfold ne. cbn [removelast map combine cumsum_bool_from fst snd].
      destruct p as [z|]; cbn [same]; [destruct (x =? z)%Z|]; reflexivity. }
    rewrite Hstep, IH. clear Hstep IH.
    destruct (runs_head y t) as (n & rs & E).
    change (runs (x :: y :: t)) with
      (match runs (y :: t) with
       | (y0, n0) :: rs0 =>
           if (x =? y0)%Z then (x, S n0) :: rs0 else (x, 1%nat) :: (y0, n0) :: rs0
       | [] => [(x, 1%nat)]
       end).
    rewrite E. cbn [same].
    rewrite (Z.eqb_sym y x).
    destruct (x =? y)%Z; reflexivity.
Qed.

Lemma streaks_run_ids (pnl : Series) :
  streaks pnl = run_ids 1 (runs (results pnl)).
Proof.
  unfold streaks, shift.
  destruct (results pnl) as [|x t]; [reflexivity|].
  apply (streak_ids t x None 0%nat).
Qed.

Lemma combine_repeat_app {A B} (v : A) (a : B) (n : nat) (l1 : list A) (l2 : list B) :
  combine (repeat v n ++ l1) (repeat a n ++ l2) =
  combine (repeat v n) (repeat a n) ++ combine l1 l2.
Proof. induction n; simpl; [reflexivity|f_equal; assumption]. Qed.

Lemma select_repeat (mask : Z -> bool) (v : Z) (a n : nat) :
  map snd (filter (fun p => mask (fst p)) (combine (repeat v n) (repeat a n))) =
  if mask v then repeat a n else [].
Proof.
  induction n as [|n IH]; simpl.
  - destruct (mask v); reflexivity.
  - destruct (mask v); simpl; [f_equal|]; exact IH.
Qed.

Lemma select_runs (mask : Z -> bool) (rs : list (Z * nat)) : forall a,
  select mask (expand rs) (run_ids a rs) = picked mask a rs.
Proof.
  unfold select, expand.
  induction rs as [|[v n] rs IH]; intros a; [reflexivity|].
  cbn [flat_map run_ids picked fst snd].
  rewrite combine_repeat_app, filter_app, map_app, select_repeat, IH.
  reflexivity.
Qed.

Lemma picked_bound (mask : Z -> bool) (rs : list (Z * nat)) : forall a,
  Forall (fun k => (a <= k)%nat) (picked mask a rs).
Proof.
  induction rs as [|[v n] rs IH]; intros a; cbn [picked fst snd]; [constructor|].
  apply Forall_app. split.
  - destruct (mask v); [|constructor].
    apply Forall_forall. intros k Hk. apply repeat_spec in Hk. lia.
  - eapply Forall_impl; [|apply (IH (S a))]. cbv beta. intros; lia.
Qed.

Lemma bump_keys (P : nat -> Prop) (k : nat) (g : list (nat * nat)) :
  P k -> Forall (fun kc => P (fst kc)) g -> Forall (fun kc => P (fst kc)) (bump k g).
Proof.
  intros Hk. induction 1 as [|[k' c] t Hh Ht IH]; simpl.
  - repeat constructor. exact Hk.
  - destruct (k =? k')%nat; [constructor; assumption|].
    destruct (k <? k')%nat.
    + constructor; [exact Hk|constructor; assumption].
    + constructor; assumption.
Qed.

Lemma groupby_size_keys (P : nat -> Prop) (l : list nat) :
  Forall P l -> Forall (fun kc => P (fst kc)) (groupby_size l).
Proof.
  induction 1; simpl; [constructor|]. apply bump_keys; assumption.
Qed.

Lemma groupby_size_run (a n : nat) (l : list nat) :
  Forall (fun k => (a < k)%nat) l ->
  groupby_size (repeat a (S n) ++ l) = (a, S n) :: groupby_size l.
Proof.
  intros Hl. induction n as [|n IH].
  - simpl. apply groupby_size_keys in Hl.
    destruct (groupby_size l) as [|[k' c] t]; [reflexivity|].
    inversion Hl as [|? ? Hk _]; subst. simpl in Hk. simpl.
    destruct (Nat.eqb_spec a k'); [lia|].
    destruct (Nat.ltb_spec a k'); [reflexivity|lia].
  - change (repeat a (S (S n)) ++ l) with (a :: (repeat a (S n) ++ l)).
    change (groupby_size (a :: (repeat a (S n) ++ l)))
      with (bump a (groupby_size (repeat a (S n) ++ l))).
    rewrite IH. simpl. rewrite Nat.eqb_refl. reflexivity.
Qed.

(** Counting the selected rows by streak number gives the lengths of the
    selected runs, in order. *)
Lemma groupby_size_picked (mask : Z -> bool) (rs : list (Z * nat)) : forall a,
  Forall (fun p => (1 <= snd p)%nat) rs ->
  map snd (groupby_size (picked mask a rs)) =
  map snd (filter (fun p => mask (fst p)) rs).
Proof.
  induction rs as [|[v n] rs IH]; intros a Hpos; [reflexivity|].
  inversion Hpos as [|? ? Hn Hrest]; subst. simpl in Hn.
  cbn [picked filter fst snd].
  destruct (mask v).
  - destruct n as [|n]; [lia|].
    rewrite groupby_size_run.
    + cbn [map snd]. f_equal. apply IH. exact Hrest.
    + eapply Forall_impl; [|apply (picked_bound mask rs (S a))].
      cbv beta. intros; lia.
  - apply IH. exact Hrest.
Qed.

Lemma results_values (pnl : Series) :
  Forall (fun v => v = 1%Z \/ v = (-1)%Z) (results pnl).
Proof.
  apply Forall_forall. intros v Hv. apply in_map_iff in Hv.
  destruct Hv as (x & <- & _). unfold classify. destruct (gt0 x); auto.
Qed.

Lemma filter_ext_Forall {A} (f g : A -> bool) (l : list A) :
  Forall (fun x => f x = g x) l -> filter f l = filter g l.
Proof.
  induction 1 as [|x l Hx _ IH]; simpl; [reflexivity|].
  rewrite Hx, IH. reflexivity.
Qed.

Lemma streak_sizes (mask : Z -> bool) (v : Z) (pnl : Series) :
  (forall x, x = 1%Z \/ x = (-1)%Z -> mask x = (x =? v)%Z) ->
  map snd (groupby_size (select mask (results pnl) (streaks pnl))) =
  run_lengths v (runs (results pnl)).
Proof.
  intros Hmask.
  rewrite streaks_run_ids.
  rewrite <- (expand_runs (results pnl)) at 1.
  rewrite select_runs, groupby_size_picked by apply runs_positive.
  unfold run_lengths. f_equal. apply filter_ext_Forall.
  eapply Forall_impl; [|apply runs_values, results_values].
  cbv beta. intros p Hp. apply Hmask, Hp.
Qed.

Lemma win_streak_sizes_runs (pnl : Series) :
  win_streak_sizes pnl = run_lengths 1 (runs (results pnl)).
Proof.
  apply streak_sizes. intros x [-> | ->]; reflexivity.
Qed.

Lemma loss_streak_sizes_runs (pnl : Series) :
  loss_streak_sizes pnl = run_lengths (-1) (runs (results pnl)).
Proof.
  apply streak_sizes. intros x [-> | ->]; reflexivity.
Qed.

Lemma expand_length (rs : list (Z * nat)) :
  length (expand rs) = list_sum (map snd rs).
Proof.
  unfold expand. induction rs as [|[v n] rs IH]; simpl; [reflexivity|].
  rewrite length_app, repeat_length, IH. reflexivity.
Qed.

Lemma run_lengths_sum (rs : list (Z * nat)) :
  Forall (fun p => fst p = 1%Z \/ fst p = (-1)%Z) rs ->
  (list_sum (run_lengths 1 rs) + list_sum (run_lengths (-1) rs))%nat =
  list_sum (map snd rs).
Proof.
  unfold run_lengths.
  induction 1 as [|[v n] rs Hv _ IH]; [reflexivity|].
  simpl in Hv. cbn [filter map fst snd list_sum].
  destruct Hv as [-> | ->]; simpl; lia.
Qed.

Lemma fold_max_spec (l : list nat) : forall a,
  (fold_left Nat.max l a = a \/ In (fold_left Nat.max l a) l) /\
  (a <= fold_left Nat.max l a)%nat /\
  Forall (fun n => (n <= fold_left Nat.max l a)%nat) l.
Proof.
  induction l as [|x l IH]; intros a; cbn [fold_left].
  - repeat split; auto.
  - destruct (IH (Nat.max a x)) as (Hin & Hle & Hall).
    split; [|split].
    + destruct Hin as [E|Hin]; [|right; right; exact Hin].
      rewrite E. destruct (Nat.max_spec a x) as [[_ ->]|[_ ->]]; simpl; auto.
    + lia.
    + constructor; [lia|exact Hall].
Qed.

(** [imax] answers the greatest entry of a list that has one. *)
Lemma imax_spec (l : list nat) (m : nat) :
  imax l = Some m -> In m l /\ Forall (fun n => (n <= m)%nat) l.
Proof.
  destruct l as [|x l]; [discriminate|].
  unfold imax. intros H. inversion H; subst. clear H.
  destruct (fold_max_spec l x) as (Hin & Hle & Hall).
  split.
  - destruct Hin as [->|Hin]; simpl; auto.
  - constructor; assumption.
Qed.

(** A null or zero 盈亏 is classified -1. *)
Example classify_null_and_zero :
  classify NaN = (-1)%Z /\ classify (Some 0) = (-1)%Z /\ classify (Some 1) = 1%Z.
Proof. repeat split. Qed.

Lemma imax_Some (l : list nat) :
  l <> [] ->
  exists m, imax l = Some m /\ In m l /\ Forall (fun n => (n <= m)%nat) l.
Proof.
  destruct l as [|x l]; [congruence|]. intros _.
  exists (fold_left Nat.max l x). split; [reflexivity|].
  apply imax_spec. reflexivity.
Qed.

Lemma results_nth (pnl : Series) (i : nat) (x : float64) :
  nth_error pnl i = Some x -> nth_error (results pnl) i = Some (classify x).
Proof.
  intros H. unfold results. rewrite nth_error_map, H. reflexivity.
Qed.

Lemma Qltb_true (a b : Q) : a < b -> Qltb a b = true.
Proof.
  intros H. unfold Qltb. destruct (Qle_bool b a) eqn:E; [|reflexivity].
  apply Qle_bool_iff in E. lra.
Qed.

Lemma Qltb_false (a b : Q) : b <= a -> Qltb a b = false.
Proof.
  intros H. unfold Qltb. apply Qle_bool_iff in H. rewrite H. reflexivity.
Qed.

(** C6.  A row is classified 1 when its 盈亏 is a number above 0, and -1
    when it is a number not above 0 or is null, so every row is classified 1
    or -1.  The maximal runs of equal classifications rebuild the sequence,
    no two neighbouring runs have the same sign and no run is empty.  The
    group sizes line 151 takes the maximum of are the lengths of the runs of
    1, those of line 152 the lengths of the runs of -1; the lengths of all of
    them add up to the number of rows.  Where there is a run of 1, the longest
    winning streak is a number, the length of one such run and at least the
    length of every other; where there is none it is NaN; and likewise for
    the runs of -1 and the longest losing streak. *)
Theorem streaks_partition (pnl : Series) :
  (forall i q, nth_error pnl i = Some (Some q) -> 0 < q ->
     nth_error (results pnl) i = Some 1%Z) /\
  (forall i q, nth_error pnl i = Some (Some q) -> q <= 0 ->
     nth_error (results pnl) i = Some (-1)%Z) /\
  (forall i, nth_error pnl i = Some None ->
     nth_error (results pnl) i = Some (-1)%Z) /\
  length (results pnl) = length pnl /\
  Forall (fun v => v = 1%Z \/ v = (-1)%Z) (results pnl) /\
  expand (runs (results pnl)) = results pnl /\
  maximal (runs (results pnl)) /\
  Forall (fun p => (1 <= snd p)%nat) (runs (results pnl)) /\
  win_streak_sizes pnl = run_lengths 1 (runs (results pnl)) /\
  loss_streak_sizes pnl = run_lengths (-1) (runs (results pnl)) /\
  (list_sum (win_streak_sizes pnl) + list_sum (loss_streak_sizes pnl))%nat
    = length pnl /\
  max_win_streak pnl = imax (run_lengths 1 (runs (results pnl))) /\
  max_loss_streak pnl = imax (run_lengths (-1) (runs (results pnl))) /\
  (forall m, max_win_streak pnl = Some m ->
     In m (run_lengths 1 (runs (results pnl))) /\
     Forall (fun n => (n <= m)%nat) (run_lengths 1 (runs (results pnl)))) /\
  (forall m, max_loss_streak pnl = Some m ->
     In m (run_lengths (-1) (runs (results pnl))) /\
     Forall (fun n => (n <= m)%nat) (run_lengths (-1) (runs (results pnl)))) /\
  (run_lengths 1 (runs (results pnl)) <> [] ->
     exists m, max_win_streak pnl = Some m /\
       In m (run_lengths 1 (runs (results pnl))) /\
       Forall (fun n => (n <= m)%nat) (run_lengths 1 (runs (results pnl)))) /\
  (run_lengths 1 (runs (results pnl)) = [] -> max_win_streak pnl = None) /\
  (run_lengths (-1) (runs (results pnl)) <> [] ->
     exists m, max_loss_streak pnl = Some m /\
       In m (run_lengths (-1) (runs (results pnl))) /\
       Forall (fun n => (n <= m)%nat) (run_lengths (-1) (runs (results pnl)))) /\
  (run_lengths (-1) (runs (results pnl)) = [] -> max_loss_streak pnl = None).
Proof.
  split.
  { intros i q H Hq. rewrite (results_nth pnl i _ H).
    unfold classify, gt0. rewrite (Qltb_true 0 q Hq). reflexivity. }
  split.
  { intros i q H Hq. rewrite (results_nth pnl i _ H).
    unfold classify, gt0. rewrite (Qltb_false 0 q Hq). reflexivity. }
  split.
  { intros i H. rewrite (results_nth pnl i _ H). reflexivity. }
  split; [unfold results; apply length_map|].
  split; [apply results_values|].
  split; [apply expand_runs|].
  split; [apply runs_maximal|].
  split; [apply runs_positive|].
  split; [apply win_streak_sizes_runs|].
  split; [apply loss_streak_sizes_runs|].
  split.
  { rewrite win_streak_sizes_runs, loss_streak_sizes_runs, run_lengths_sum.
    - rewrite <- expand_length, expand_runs. unfold results. apply length_map.
    - apply (runs_values (fun v => v = 1%Z \/ v = (-1)%Z)), results_values. }
  unfold max_win_streak, max_loss_streak.
  rewrite win_streak_sizes_runs, loss_streak_sizes_runs.
  split; [reflexivity|]. split; [reflexivity|].
  split; [intros m; apply imax_spec|].
  split; [intros m; apply imax_spec|].
  split; [apply imax_Some|].
  split; [intros ->; reflexivity|].
  split; [apply imax_Some|].
  intros ->. reflexivity.
Qed.

(** The example of the spec: [10, -5, -3, 7, 7, -1] has streaks 1, 2, 2, 1
    and both maxima are 2. *)
Example streaks_example :
  let pnl := [Some 10; Some (-5); Some (-3); Some 7; Some 7; Some (-1)] in
  streaks pnl = [1; 2; 2; 3; 3; 4]%nat /\
  win_streak_sizes pnl = [1; 2]%nat /\ loss_streak_sizes pnl = [2; 1]%nat /\
  max_win_streak pnl = Some 2%nat /\ max_loss_streak pnl = Some 2%nat.
Proof. repeat split. Qed.

Lemma select_none (mask : Z -> bool) (r : list Z) : forall keys,
  Forall (fun x => mask x = false) r -> select mask r keys = [].
Proof.
  unfold select. induction r as [|x r IH]; intros keys H; [reflexivity|].
  inversion H as [|? ? Hx Hr]; subst.
  destruct keys as [|k keys]; [reflexivity|].
  simpl. rewrite Hx. apply IH. exact Hr.
Qed.

(** C9.  On a sequence that is not empty, when no 盈亏 is above 0 the longest
    winning streak is NaN, and when every 盈亏 is above 0 the longest losing
    streak is NaN: the maximum of no group sizes. *)
Theorem max_streak_nan (pnl : Series) :
  pnl <> [] ->
  ((forall x, In x pnl -> gt0 x = false) -> max_win_streak pnl = None) /\
  ((forall x, In x pnl -> gt0 x = true) -> max_loss_streak pnl = None).
Proof.
  intros _. split; intros H.
  - unfold max_win_streak, win_streak_sizes. rewrite select_none; [reflexivity|].
    apply Forall_forall. intros v Hv. apply in_map_iff in Hv.
    destruct Hv as (x & <- & Hx). unfold classify. rewrite (H x Hx). reflexivity.
  - unfold max_loss_streak, loss_streak_sizes. rewrite select_none; [reflexivity|].
    apply Forall_forall. intros v Hv. apply in_map_iff in Hv.
    destruct Hv as (x & <- & Hx). unfold classify. rewrite (H x Hx). reflexivity.
Qed.

Lemma max_streak_nan_witness :
  max_win_streak [Some (-2); None; Some 0] = None /\
  max_loss_streak [Some 3; Some 1] = None.
Proof.
  split.
  - apply (max_streak_nan [Some (-2); None; Some 0]); [discriminate|].
    intros x [<-|[<-|[<-|[]]]]; reflexivity.
  - apply (max_streak_nan [Some 3; Some 1]); [discriminate|].
    intros x [<-|[<-|[]]]; reflexivity.
Defined.

End StreakFacts.

(** ** The profit ratio *)

Module RatioFacts.
Import Series Metrics.

Lemma Qltb_lt (a b : Q) : Qltb a b = true <-> a < b.
Proof.
  unfold Qltb. rewrite negb_true_iff.
  destruct (Qle_bool b a) eqn:E.
  - apply Qle_bool_iff in E. split; [discriminate|lra].
  - split; [intros _|reflexivity].
    destruct (Qlt_le_dec a b) as [H|H]; [exact H|].
    apply Qle_bool_iff in H. congruence.
Qed.

Lemma dropna_losers_neg (pnl : Series) :
  Forall (fun q => q < 0) (dropna (losers pnl)).
Proof.
  unfold losers. induction pnl as [|[q|] pnl IH]; simpl; [constructor| |exact IH].
  destruct (Qltb q 0) eqn:E; [|exact IH].
  simpl. constructor; [apply Qltb_lt; exact E|exact IH].
Qed.

Lemma dropna_losers_length (pnl : Series) :
  length (dropna (losers pnl)) = length (losers pnl).
Proof.
  unfold losers. induction pnl as [|[q|] pnl IH]; simpl; auto.
  destruct (Qltb q 0); simpl; auto.
Qed.

Lemma Qsum_neg (l : list Q) :
  Forall (fun q => q < 0) l -> l <> [] -> Qsum l < 0.
Proof.
  induction 1 as [|x l Hx Hl IH]; intros Hne; [congruence|].
  simpl. destruct l as [|y l].
  - simpl. lra.
  - assert (Qsum (y :: l) < 0) by (apply IH; discriminate). lra.
Qed.

Lemma Qcount_pos (l : list Q) : l <> [] -> 0 < Qcount l.
Proof.
  intros Hne. unfold Qcount. destruct l as [|x l]; [congruence|].
  change 0 with (inject_Z 0). rewrite <- Zlt_Qlt. simpl length. lia.
Qed.

(** X5.  The divisor of line 147 is never zero: when some 盈亏 is below 0, the
    mean of the losing rows is a number below 0. *)
Lemma profit_ratio_divisor_nonzero (pnl : Series) :
  empty (losers pnl) = false ->
  exists m, mean (losers pnl) = Some m /\ m < 0.
Proof.
  intros Hne. unfold mean.
  pose proof (dropna_losers_length pnl) as Hlen.
  pose proof (dropna_losers_neg pnl) as Hneg.
  destruct (dropna (losers pnl)) as [|x l] eqn:E.
  - destruct (losers pnl); [discriminate Hne|discriminate Hlen].
  - eexists. split; [reflexivity|].
    apply Qlt_shift_div_r.
    + apply Qcount_pos. discriminate.
    + assert (Qsum (x :: l) < 0) by (apply Qsum_neg; [exact Hneg|discriminate]).
      lra.
Qed.

Lemma profit_ratio_divisor_nonzero_witness :
  exists m, mean (losers [Some 3; Some (-2); None; Some (-4)]) = Some m /\ m < 0.
Proof.
  apply (profit_ratio_divisor_nonzero [Some 3; Some (-2); None; Some (-4)]).
  reflexivity.
Defined.

Lemma filter_none {A} (f : A -> bool) (l : list A) :
  (forall x, In x l -> f x = false) -> filter f l = [].
Proof.
  induction l as [|y l IH]; intros H; [reflexivity|].
  simpl. rewrite (H y (or_introl eq_refl)).
  apply IH. intros x Hx. apply H. right. exact Hx.
Qed.

(** C10.  When some 盈亏 is below 0 and none is above 0, line 147 takes its
    first branch, the mean of the winning rows is NaN, and so is the profit
    ratio. *)
Theorem profit_ratio_no_winner (pnl : Series) :
  (exists x, In x pnl /\ lt0 x = true) ->
  (forall x, In x pnl -> gt0 x = false) ->
  empty (losers pnl) = false /\ mean (winners pnl) = NaN /\ profit_ratio pnl = NaN.
Proof.
  intros (x & Hin & Hlt) Hnowin.
  assert (Hl : empty (losers pnl) = false).
  { assert (In x (losers pnl)) as Hx by (apply filter_In; auto).
    destruct (losers pnl); [destruct Hx|reflexivity]. }
  assert (Hw : winners pnl = []) by (apply filter_none; exact Hnowin).
  split; [exact Hl|]. unfold profit_ratio. rewrite Hl, Hw.
  split; reflexivity.
Qed.

Lemma profit_ratio_no_winner_witness :
  empty (losers [Some (-4); Some 0; None]) = false /\
  mean (winners [Some (-4); Some 0; None]) = NaN /\
  profit_ratio [Some (-4); Some 0; None] = NaN.
Proof.
  apply (profit_ratio_no_winner [Some (-4); Some 0; None]).
  - exists (Some (-4)). split; [left; reflexivity|reflexivity].
  - intros x [<-|[<-|[<-|[]]]]; reflexivity.
Defined.

End RatioFacts.

(** ** The Sharpe ratio *)

Module SharpeFacts.
Import Series Metrics.

Lemma rne0_nonzero (s : R) : s <> 0%R -> rne0 (Some s) = true.
Proof. intros H. unfold rne0. destruct (Req_dec_T s 0); [contradiction|reflexivity]. Qed.

(** X4.  With fewer than two numbers the standard deviation is NaN, the test
    [std() != 0] passes, and the quotient is NaN. *)
Lemma sharpe_few_values (pnl : Series) :
  (length (dropna pnl) <= 1)%nat -> std pnl = None /\ sharpe pnl = None.
Proof.
  intros H. unfold sharpe, std, var.
  apply Nat.leb_le in H. rewrite H. simpl.
  split; [reflexivity|]. destruct (option_map Q2R (mean pnl)); reflexivity.
Qed.

(** C1 at one trade.  A single trade of 盈亏 5 has a mean of 5 and a standard
    deviation that is NaN, not 0, and its Sharpe ratio is NaN, not 0; so has
    the sequence with no trade. *)
Theorem sharpe_single_trade :
  mean [Some 5] = Some 5 /\ std [Some 5] = None /\ sharpe [Some 5] = None /\
  sharpe [] = None.
Proof. repeat split. Qed.

(** X1.  Where the standard deviation is a number other than 0, at least two
    盈亏 are numbers and the Sharpe ratio is mean / std * sqrt 252, where the
    mean is the sum of those numbers over their count N, and std is the
    square root of the sum of the squared distances to the mean over N - 1. *)
Theorem sharpe_formula (pnl : Series) (s : R) :
  std pnl = Some s -> s <> 0%R ->
  exists m v : Q,
    (2 <= length (dropna pnl))%nat /\
    m * inject_Z (Z.of_nat (length (dropna pnl))) == Qsum (dropna pnl) /\
    v * (inject_Z (Z.of_nat (length (dropna pnl))) - 1)
      == Qsum (map (fun x => (x - m) * (x - m)) (dropna pnl)) /\
    s = sqrt (Q2R v) /\
    sharpe pnl = Some (Q2R m / s * sqrt 252)%R.
Proof.
  intros Hs Hne.
  assert (Hstd := Hs). unfold std, var in Hs.
  destruct (length (dropna pnl) <=? 1)%nat eqn:E; [discriminate|].
  apply Nat.leb_gt in E. cbn [option_map] in Hs. injection Hs as Hs'. subst s.
  assert (Hn : 2 <= inject_Z (Z.of_nat (length (dropna pnl)))).
  { change 2 with (inject_Z 2). rewrite <- Zle_Qle. lia. }
  exists (Qsum (dropna pnl) / Qcount (dropna pnl)).
  exists (Qsum (map (fun x => (x - Qsum (dropna pnl) / Qcount (dropna pnl)) *
                              (x - Qsum (dropna pnl) / Qcount (dropna pnl)))
                   (dropna pnl)) / (Qcount (dropna pnl) - 1)).
  split; [lia|]. split; [unfold Qcount; field; lra|].
  split; [unfold Qcount; field; lra|].
  split; [reflexivity|].
  unfold sharpe. rewrite Hstd, rne0_nonzero by exact Hne.
  unfold mean. destruct (dropna pnl) as [|x l] eqn:El; [simpl in E; lia|].
  reflexivity.
Qed.

Lemma sharpe_formula_witness :
  exists s, std [Some 1; Some 3] = Some s /\ s <> 0%R /\
  exists m v : Q,
    le 2 (length (dropna [Some 1; Some 3])) /\
    m * inject_Z (Z.of_nat (length (dropna [Some 1; Some 3])))
      == Qsum (dropna [Some 1; Some 3]) /\
    v * (inject_Z (Z.of_nat (length (dropna [Some 1; Some 3]))) - 1)
      == Qsum (map (fun x => (x - m) * (x - m)) (dropna [Some 1; Some 3])) /\
    s = sqrt (Q2R v) /\
    sharpe [Some 1; Some 3] = Some (Q2R m / s * sqrt 252)%R.
Proof.
  eexists. split; [reflexivity|].
  assert (Hs : sqrt (Q2R (Qsum (map (fun x => (x - Qsum [1; 3] / Qcount [1; 3]) *
                                              (x - Qsum [1; 3] / Qcount [1; 3]))
                                    [1; 3]) / (Qcount [1; 3] - 1))) <> 0%R).
  { apply Rgt_not_eq. apply sqrt_lt_R0. unfold Q2R. simpl. lra. }
  split; [exact Hs|].
  apply (sharpe_formula [Some 1; Some 3]); [reflexivity|exact Hs].
Defined.

Lemma sharpe_few_values_witness :
  std [None; Some 7; None] = None /\ sharpe [None; Some 7; None] = None.
Proof. apply (sharpe_few_values [None; Some 7; None]). simpl. lia. Defined.

End SharpeFacts.

(** ** The loader *)

Module NormalizerFacts.
Import Series Normalizer Sample.

Local Open Scope string_scope.

(** *** The sample instance meets the interface *)

Lemma time_leb_true (a b : Trade) : time_leb a b = true -> time_le a b.
Proof.
  unfold time_leb, time_le.
  destruct (时间 a), (时间 b); try (intros; exact I); try discriminate.
  apply Z.leb_le.
Qed.

Lemma time_leb_false (a b : Trade) : time_leb a b = false -> time_le b a.
Proof.
  unfold time_leb, time_le.
  destruct (时间 a), (时间 b); try (intros; exact I); try discriminate.
  intros H. apply Z.leb_gt in H. lia.
Qed.

Section Insertion.

Variable put_before : Trade -> Trade -> bool.
Hypothesis put_before_true : forall a b, put_before a b = true -> time_le a b.
Hypothesis put_before_false : forall a b, put_before a b = false -> time_le b a.

Lemma insert_perm (x : Trade) (l : list Trade) :
  Permutation (x :: l) (insert put_before x l).
Proof.
  induction l as [|y l IH]; simpl; [reflexivity|].
  destruct (put_before x y); [reflexivity|].
  rewrite perm_swap. apply perm_skip. exact IH.
Qed.

Lemma insertion_sort_perm (l : list Trade) :
  Permutation l (insertion_sort put_before l).
Proof.
  induction l as [|x l IH]; simpl; [reflexivity|].
  rewrite <- insert_perm. apply perm_skip. exact IH.
Qed.

Lemma insert_sorted (x : Trade) (l : list Trade) :
  Sorted time_le l -> Sorted time_le (insert put_before x l).
Proof.
  induction 1 as [|y l Hs IH Hh]; simpl; [repeat constructor|].
  destruct (put_before x y) eqn:E.
  - constructor; [constructor; assumption|].
    constructor. apply put_before_true. exact E.
  - constructor; [exact IH|].
    destruct l as [|z l]; simpl.
    + constructor. apply put_before_false. exact E.
    + destruct (put_before x z).
      * constructor. apply put_before_false. exact E.
      * inversion Hh; subst. constructor. assumption.
Qed.

Lemma insertion_sort_sorted (l : list Trade) :
  Sorted time_le (insertion_sort put_before l).
Proof.
  induction l as [|x l IH]; simpl; [constructor|].
  apply insert_sorted. exact IH.
Qed.

End Insertion.

Lemma pandas_keeping_ties_spec : PandasSpec pandas_keeping_ties.
Proof.
  split; intros l; simpl.
  - apply insertion_sort_perm.
  - apply insertion_sort_sorted; [apply time_leb_true|apply time_leb_false].
Qed.

(** *** The monad *)

Lemma bind_Ok {A B} (m : result A) (k : A -> result B) (b : B) :
  bind m k = Ok b -> exists a, m = Ok a /\ k a = Ok b.
Proof.
  destruct m as [a|e]; simpl; [eauto|discriminate].
Qed.

Ltac bind_inv H :=
  let a := fresh "a" in
  let Ha := fresh "Ha" in
  apply bind_Ok in H; destruct H as (a & Ha & H).

Lemma mapM_Ok {A B} (f : A -> result B) (l : list A) : forall l',
  mapM f l = Ok l' -> Forall2 (fun a b => f a = Ok b) l l'.
Proof.
  induction l as [|a l IH]; intros l' H; simpl in H.
  - inversion H. constructor.
  - bind_inv H. bind_inv H. inversion H; subst.
    constructor; [assumption|apply IH; assumption].
Qed.

Lemma Forall2_In_r {A B} (R : A -> B -> Prop) (l : list A) (l' : list B) (b : B) :
  Forall2 R l l' -> In b l' -> exists a, In a l /\ R a b.
Proof.
  induction 1 as [|x y l l' Hxy _ IH]; intros Hin; [destruct Hin|].
  destruct Hin as [<-|Hin].
  - exists x. simpl. auto.
  - destruct (IH Hin) as (a & Ha & HR). exists a. simpl. auto.
Qed.

(** *** Sorted rows *)

Lemma Sorted_adjacent {A} (R : A -> A -> Prop) (l : list A) :
  Sorted R l ->
  forall i a b, nth_error l i = Some a -> nth_error l (S i) = Some b -> R a b.
Proof.
  induction 1 as [|x l Hs IH Hh]; intros i a b Ha Hb.
  - destruct i; discriminate.
  - destruct i as [|i].
    + simpl in Ha. inversion Ha; subst.
      destruct l as [|y l]; [discriminate|].
      simpl in Hb. inversion Hb; subst.
      inversion Hh; subst. assumption.
    + simpl in Ha. apply (IH i a b Ha Hb).
Qed.

Lemma complete_fields (t : Trade) :
  complete t = true ->
  时间 t <> None /\ 价格 t <> None /\ 方向 t <> None.
Proof.
  unfold complete. intros H.
  apply andb_true_iff in H. destruct H as [H H3].
  apply andb_true_iff in H. destruct H as [H1 H2].
  destruct (时间 t), (价格 t), (方向 t); try discriminate.
  repeat split; discriminate.
Qed.

Lemma map_side_values (c : cell) :
  map_side c = None \/ map_side c = Some "Buy" \/ map_side c = Some "Sell".
Proof.
  unfold map_side. destruct c as [s|]; [|auto].
  destruct (String.eqb s "B"); [auto|].
  destruct (String.eqb s "S"); auto.
Qed.

Lemma coerced_rows_sides (P : Pandas) (files : list (list string)) (rows : list Trade) :
  coerced_rows P files = Ok rows ->
  Forall (fun t => 方向 t = None \/ 方向 t = Some "Buy" \/ 方向 t = Some "Sell") rows.
Proof.
  unfold coerced_rows. intros H. do 4 bind_inv H. inversion H; subst.
  apply Forall_forall. intros t Ht. unfold clean in Ht. apply in_map_iff in Ht.
  destruct Ht as (i & <- & _). cbn [方向].
  destruct (nth_in_or_default i (map map_side (column "Buy/Sell" a2)) None)
    as [Hin | ->]; [|auto].
  apply in_map_iff in Hin. destruct Hin as (c & <- & _).
  apply map_side_values.
Qed.

Lemma load_steps (P : Pandas) (files : list (list string)) (out : list Trade) :
  load_and_clean_data P files = Ok out ->
  exists rows, coerced_rows P files = Ok rows /\
               cleaned_rows P files = Ok (filter complete rows) /\
               out = sort_values P (filter complete rows).
Proof.
  unfold load_and_clean_data, cleaned_rows. intros H.
  bind_inv H. inversion H; subst. clear H.
  bind_inv Ha. inversion Ha; subst.
  exists a0. rewrite Ha0. simpl. auto.
Qed.

(** C4.  With a sort that meets the interface, whenever the loader returns,
    every row of its output has a time and a price that are not null and a
    side that is Buy or Sell; and the output holds exactly the converted rows
    in which all three are present, each as often as it occurs: a row whose
    time, price or side came out null is not in it. *)
Theorem load_rows_complete (P : Pandas) (files : list (list string)) (out : list Trade) :
  PandasSpec P ->
  load_and_clean_data P files = Ok out ->
  Forall (fun t => 时间 t <> None /\ 价格 t <> None /\
                   (方向 t = Some "Buy" \/ 方向 t = Some "Sell")) out /\
  (exists rows, coerced_rows P files = Ok rows /\
     Permutation (filter complete rows) out /\
     forall t, In t out <->
               In t rows /\ notna (时间 t) && notna (价格 t) && notna (方向 t) = true).
Proof.
  intros HP H. apply load_steps in H. destruct H as (rows & Hr & _ & ->).
  assert (Hperm : Permutation (filter complete rows)
                              (sort_values P (filter complete rows)))
    by (apply sort_values_perm; exact HP).
  assert (Hin : forall t, In t (sort_values P (filter complete rows)) <->
                          In t rows /\ complete t = true).
  { intros t. rewrite <- filter_In. split; apply Permutation_in;
      [apply Permutation_sym|]; exact Hperm. }
  split.
  - apply Forall_forall. intros t Ht. apply Hin in Ht. destruct Ht as [Ht Hc].
    destruct (complete_fields t Hc) as (H1 & H2 & H3).
    split; [exact H1|]. split; [exact H2|].
    pose proof (coerced_rows_sides P files rows Hr) as Hs.
    rewrite Forall_forall in Hs. destruct (Hs t Ht) as [E|E]; [congruence|exact E].
  - exists rows. split; [exact Hr|]. split; [exact Hperm|exact Hin].
Qed.

Lemma load_rows_complete_witness :
  Forall (fun t => 时间 t <> None /\ 价格 t <> None /\
                   (方向 t = Some "Buy" \/ 方向 t = Some "Sell"))
         [trade "A5" "Sell" "NQ" 14 1 90 0 (Some 4)] /\
  (exists rows, coerced_rows pandas_keeping_ties [file_dirty] = Ok rows /\
     Permutation (filter complete rows) [trade "A5" "Sell" "NQ" 14 1 90 0 (Some 4)] /\
     forall t, In t [trade "A5" "Sell" "NQ" 14 1 90 0 (Some 4)] <->
               In t rows /\ notna (时间 t) && notna (价格 t) && notna (方向 t) = true).
Proof.
  apply (load_rows_complete pandas_keeping_ties [file_dirty]).
  - exact pandas_keeping_ties_spec.
  - vm_compute. reflexivity.
Defined.

(** *** Missing columns *)

Lemma has_In (c : string) (cols : list string) : has c cols = true <-> In c cols.
Proof.
  unfold has. rewrite existsb_exists. split.
  - intros (x & Hx & E). apply String.eqb_eq in E. subst. exact Hx.
  - intros H. exists c. split; [exact H|apply String.eqb_refl].
Qed.

Lemma add_columns_In (c : string) (new : list string) : forall acc,
  In c (add_columns acc new) -> In c acc \/ In c new.
Proof.
  unfold add_columns.
  induction new as [|x new IH]; intros acc H; simpl in H; [auto|].
  apply IH in H. destruct H as [H|H]; [|simpl; auto].
  destruct (has x acc); [auto|].
  apply in_app_or in H. destruct H as [H|[H|[]]]; simpl; auto.
Qed.

Lemma union_columns_In (c : string) (cols : list (list string)) : forall acc,
  In c (fold_left add_columns cols acc) ->
  In c acc \/ exists cs, In cs cols /\ In c cs.
Proof.
  induction cols as [|cs cols IH]; intros acc H; simpl in H; [auto|].
  apply IH in H. destruct H as [H|(cs' & Hcs & Hc)].
  - apply add_columns_In in H. destruct H; [auto|].
    right. exists cs. simpl. auto.
  - right. exists cs'. simpl. auto.
Qed.

(** The columns of an extracted frame are the header line 104 read, or none
    when the file has no marker. *)
Lemma extract_columns (P : Pandas) (lines : list string) (df : DataFrame) :
  extract_completed_orders P lines = Ok df ->
  columns df = [] \/ extracted_header lines = Some (columns df).
Proof.
  unfold extract_completed_orders, extracted_header, read_csv.
  destruct (find_start 0 lines) as [start|].
  - destruct (nth_error lines start) as [line|]; [|discriminate].
    intros H. bind_inv H. inversion H; subst. right. reflexivity.
  - intros H. inversion H; subst. left. reflexivity.
Qed.

Lemma project_missing (df : DataFrame) (c : string) :
  In c required_columns -> ~ In c (columns df) ->
  exists missing, project df = Raise (KeyError missing) /\ In c missing.
Proof.
  intros Hreq Hnot. unfold project.
  assert (Hin : In c (filter (fun c => negb (has c (columns df))) required_columns)).
  { apply filter_In. split; [exact Hreq|].
    destruct (has c (columns df)) eqn:E; [|reflexivity].
    apply has_In in E. contradiction. }
  destruct (filter (fun c => negb (has c (columns df))) required_columns) as [|m ms].
  - destruct Hin.
  - eexists. split; [reflexivity|exact Hin].
Qed.

(** C7, as the code has it.  When one of the eight required columns is in the
    header of no file, the loader raises; and where the files were read and
    merged and the Status column is there, what it raises is the [KeyError]
    of line 112, naming that column. *)
Theorem load_missing_column (P : Pandas) (files : list (list string)) (c : string) :
  In c required_columns ->
  (forall f h, In f files -> extracted_header f = Some h -> ~ In c h) ->
  exists e, load_and_clean_data P files = Raise e /\
    (forall dfs df, mapM (extract_completed_orders P) files = Ok dfs ->
       concat dfs = Ok df -> has "Status" (columns df) = true ->
       exists missing, e = KeyError missing /\ In c missing).
Proof.
  intros Hreq Hfiles.
  unfold load_and_clean_data, cleaned_rows, coerced_rows.
  destruct (mapM (extract_completed_orders P) files) as [dfs|e] eqn:Em;
    [|exists e; split; [reflexivity|discriminate]].
  cbn [bind].
  destruct (concat dfs) as [df|e] eqn:Ec;
    [|exists e; split; [reflexivity|intros ? ? H; inversion H; subst; congruence]].
  cbn [bind].
  assert (Hnot : ~ In c (columns df)).
  { assert (Hcols : columns df = fold_left add_columns (map columns dfs) []).
    { unfold concat in Ec. destruct dfs; [discriminate|].
      inversion Ec. reflexivity. }
    rewrite Hcols. intros Hin.
    apply union_columns_In in Hin.
    destruct Hin as [Hin|(cs & Hcs & Hc)]; [exact Hin|].
    apply in_map_iff in Hcs. destruct Hcs as (d0 & <- & Hd0).
    apply mapM_Ok in Em.
    destruct (Forall2_In_r _ _ _ _ Em Hd0) as (f & Hf & Hext).
    apply extract_columns in Hext. destruct Hext as [E|E].
    - rewrite E in Hc. destruct Hc.
    - exact (Hfiles f _ Hf E Hc). }
  unfold filter_filled.
  destruct (has "Status" (columns df)) eqn:Es.
  - cbn [bind].
    destruct (project_missing {| columns := columns df;
                                 rows := filter filled (rows df) |} c Hreq Hnot)
      as (missing & Hp & Hm).
    rewrite Hp. cbn [bind]. exists (KeyError missing). split; [reflexivity|].
    intros dfs0 df0 _ _ _. exists missing. auto.
  - cbn [bind]. eexists. split; [reflexivity|].
    intros dfs0 df0 H1 H2 H3. inversion H1; subst dfs0.
    rewrite Ec in H2. inversion H2; subst df0. congruence.
Qed.

Lemma load_missing_column_witness :
  exists e, load_and_clean_data pandas_keeping_ties [file_no_pnl] = Raise e /\
    (forall dfs df,
       mapM (extract_completed_orders pandas_keeping_ties) [file_no_pnl] = Ok dfs ->
       concat dfs = Ok df -> has "Status" (columns df) = true ->
       exists missing, e = KeyError missing /\ In "Closed Profit/Loss" missing).
Proof.
  apply (load_missing_column pandas_keeping_ties [file_no_pnl] "Closed Profit/Loss").
  - simpl. tauto.
  - intros f h [<-|[]] H. vm_compute in H. inversion H; subst.
    intros Hin. simpl in Hin. intuition discriminate.
Defined.

(** C7, as the claim states it, fails when another file supplies the column:
    the header of [file_no_pnl] has no closed profit/loss column, and the
    run over [file_ties] and [file_no_pnl] returns four rows, the one of
    [file_no_pnl] with a null 盈亏. *)
Lemma load_partial_header_accepted :
  extracted_header file_no_pnl =
    Some ["Account"; "Status"; "Buy/Sell"; "Symbol"; "Avg Fill Price";
          "Qty To Fill"; "Update Time (CST)"; "Commission Fill Rate"] /\
  has "Closed Profit/Loss"
      ["Account"; "Status"; "Buy/Sell"; "Symbol"; "Avg Fill Price";
       "Qty To Fill"; "Update Time (CST)"; "Commission Fill Rate"] = false /\
  In "Closed Profit/Loss" required_columns /\
  load_and_clean_data pandas_keeping_ties [file_ties; file_no_pnl] =
    Ok [trade "A3" "Buy" "NQ" 12 1 50 2 (Some (-3));
        trade "A4" "Sell" "NQ" 13 1 70 2 NaN;
        trade "A1" "Buy" "ES" 10 1 100 2 (Some 5);
        trade "A2" "Sell" "ES" 11 1 100 2 (Some 7)].
Proof.
  split; [vm_compute; reflexivity|].
  split; [vm_compute; reflexivity|].
  split; [simpl; tauto|].
  vm_compute. reflexivity.
Qed.

End NormalizerFacts.

(** ** Reading a file: the marker and the header line *)

Module TextFacts.
Import Series Normalizer Page.

Local Open Scope string_scope.

Lemma prefix_app (p : string) : forall s,
  prefix p s = true <-> exists post, s = p ++ post.
Proof.
  induction p as [|a p IH]; intros s.
  - split; [intros _; exists s; reflexivity|intros _; destruct s; reflexivity].
  - destruct s as [|b s]; simpl.
    + split; [discriminate|intros (post & H); discriminate].
    + destruct (ascii_dec a b) as [->|Hab].
      * rewrite IH. split; intros (post & H); exists post.
        -- rewrite H. reflexivity.
        -- inversion H. reflexivity.
      * split; [discriminate|].
        intros (post & H). inversion H. congruence.
Qed.

(** X6.  The test of line 99, [pat in s], holds exactly when [s] is some text,
    then [pat], then some text. *)
Theorem contains_substring (pat s : string) :
  contains pat s = true <-> exists pre post, s = pre ++ pat ++ post.
Proof.
  induction s as [|c s IH]; cbn [contains].
  - rewrite prefix_app. split.
    + intros (post & H). exists "", post. exact H.
    + intros (pre & post & H). destruct pre; [|discriminate].
      exists post. exact H.
  - rewrite orb_true_iff, IH, prefix_app. split.
    + intros [(post & H)|(pre & post & H)].
      * exists "", post. exact H.
      * exists (String c pre), post. simpl. rewrite H. reflexivity.
    + intros (pre & post & H). destruct pre as [|d pre].
      * left. exists post. exact H.
      * right. simpl in H. inversion H. exists pre, post. reflexivity.
Qed.

Lemma find_start_from (lines : list string) : forall i0,
  match find_start i0 lines with
  | Some k =>
      exists i line, k = S (i0 + i) /\ nth_error lines i = Some line /\
        contains "Completed Orders" line = true /\
        forall j l, (j < i)%nat -> nth_error lines j = Some l ->
                    contains "Completed Orders" l = false
  | None => Forall (fun l => contains "Completed Orders" l = false) lines
  end.
Proof.
  induction lines as [|x lines IH]; intros i0; simpl.
  - constructor.
  - destruct (contains "Completed Orders" x) eqn:E.
    + exists 0%nat, x. repeat split; [f_equal; lia|exact E|].
      intros j l Hj. lia.
    + specialize (IH (S i0)).
      destruct (find_start (S i0) lines) as [k|].
      * destruct IH as (i & line & -> & Hn & Hc & Hbefore).
        exists (S i), line. repeat split; [f_equal; lia|exact Hn|exact Hc|].
        intros [|j] l Hj Hl; simpl in Hl.
        -- inversion Hl; subst. exact E.
        -- apply (Hbefore j l); [lia|exact Hl].
      * constructor; assumption.
Qed.

(** X7.  The loop of lines 98 to 101 stops at the first line that holds the
    marker and answers the index of the line after it; it answers nothing
    exactly when no line holds the marker. *)
Theorem find_start_first_marker (lines : list string) :
  match find_start 0 lines with
  | Some start_index =>
      exists i line, start_index = S i /\ nth_error lines i = Some line /\
        contains "Completed Orders" line = true /\
        forall j l, (j < i)%nat -> nth_error lines j = Some l ->
                    contains "Completed Orders" l = false
  | None => Forall (fun l => contains "Completed Orders" l = false) lines
  end.
Proof. exact (find_start_from lines 0). Qed.

Lemma split_comma_cons (s : string) : exists h t, split_comma s = h :: t.
Proof.
  induction s as [|c s (h & t & IH)]; simpl; [eauto|].
  destruct (Ascii.eqb c ","); [eauto|]. rewrite IH. eauto.
Qed.

(** X8.  Line 104's [split(',')] loses nothing: joining the pieces with
    commas gives the line back, no piece holds a comma, and there is one piece
    more than there are commas. *)
Theorem split_comma_join (s : string) :
  String.concat "," (split_comma s) = s /\
  Forall (fun f => has_char "," f = false) (split_comma s) /\
  length (split_comma s) = S (count_char "," s).
Proof.
  induction s as [|c s (IHj & IHf & IHl)]; simpl.
  - repeat split. repeat constructor.
  - destruct (split_comma_cons s) as (h & t & E).
    destruct (Ascii.eqb c ",") eqn:Ec.
    + apply Ascii.eqb_eq in Ec. subst c.
      split; [|split].
      * rewrite E in *. simpl. f_equal. exact IHj.
      * constructor; [reflexivity|exact IHf].
      * simpl. rewrite IHl. reflexivity.
    + rewrite E in *. split; [|split].
      * destruct t; simpl in *; f_equal; exact IHj.
      * inversion IHf; subst. constructor; [|assumption].
        simpl. rewrite Ec. assumption.
      * simpl in *. exact IHl.
Qed.

Lemma split_comma_plain (s : string) :
  has_char "," s = false -> split_comma s = [s].
Proof.
  induction s as [|c s IH]; simpl; [reflexivity|].
  intros H. apply orb_false_iff in H. destruct H as [Hc Hs].
  rewrite Hc, (IH Hs). reflexivity.
Qed.

Lemma split_comma_app (a b : string) :
  has_char "," a = false ->
  split_comma (a ++ String "," b) = a :: split_comma b.
Proof.
  induction a as [|c a IH]; simpl; [reflexivity|].
  intros H. apply orb_false_iff in H. destruct H as [Hc Ha].
  rewrite Hc, (IH Ha). reflexivity.
Qed.

Lemma split_comma_concat (names : list string) :
  names <> [] ->
  Forall (fun n => has_char "," n = false) names ->
  split_comma (String.concat "," names) = names.
Proof.
  induction names as [|n names IH]; intros Hne Hall; [congruence|].
  inversion Hall as [|? ? Hn Hrest]; subst.
  destruct names as [|m names].
  - simpl. apply split_comma_plain. exact Hn.
  - change (String.concat "," (n :: m :: names))
      with (n ++ String "," (String.concat "," (m :: names))).
    rewrite split_comma_app by exact Hn.
    f_equal. apply IH; [discriminate|exact Hrest].
Qed.

Lemma remove_quotes_app (a b : string) :
  remove_quotes (a ++ b) = remove_quotes a ++ remove_quotes b.
Proof.
  induction a as [|c a IH]; simpl; [reflexivity|].
  destruct (Ascii.eqb c quote); simpl; rewrite IH; reflexivity.
Qed.

Lemma remove_quotes_plain (s : string) :
  has_char quote s = false -> remove_quotes s = s.
Proof.
  induction s as [|c s IH]; simpl; [reflexivity|].
  intros H. apply orb_false_iff in H. destruct H as [Hc Hs].
  rewrite Hc, (IH Hs). reflexivity.
Qed.

Lemma remove_quotes_quoted (s : string) :
  has_char quote s = false -> remove_quotes (quoted s) = s.
Proof.
  intros H. unfold quoted.
  change (String quote (s ++ String quote ""))
    with (String quote "" ++ (s ++ String quote "")).
  rewrite !remove_quotes_app, (remove_quotes_plain s H).
  change (remove_quotes (String quote "")) with "".
  cbn [append].
  clear H. induction s; simpl; [reflexivity|f_equal; assumption].
Qed.

Lemma remove_quotes_concat (names : list string) :
  Forall (fun n => has_char quote n = false) names ->
  remove_quotes (String.concat "," (map quoted names)) = String.concat "," names.
Proof.
  induction 1 as [|n names Hn Hrest IH]; [reflexivity|].
  destruct names as [|m names].
  - simpl. apply remove_quotes_quoted. exact Hn.
  - change (String.concat "," (map quoted (n :: m :: names)))
      with (quoted n ++ String "," (String.concat "," (map quoted (m :: names)))).
    change (String "," (String.concat "," (map quoted (m :: names))))
      with (String "," "" ++ String.concat "," (map quoted (m :: names))).
    rewrite !remove_quotes_app, IH, (remove_quotes_quoted n Hn).
    reflexivity.
Qed.

(** X9.  A file whose first line is the marker and whose second line lists
    the column names between double quotes, separated by commas, has exactly
    those names as its header, whatever the data lines are; the names must
    hold neither a comma nor a double quote, and there must be one at least. *)
Theorem extracted_header_quoted (names data : list string) :
  names <> [] ->
  Forall (fun n => has_char "," n = false /\ has_char quote n = false) names ->
  extracted_header
    ("Completed Orders" :: String.concat "," (map quoted names) :: data)
  = Some names.
Proof.
  intros Hne Hall.
  unfold extracted_header.
  change (find_start 0 ("Completed Orders" :: String.concat "," (map quoted names) :: data))
    with (Some 1%nat).
  cbn [nth_error option_map].
  rewrite remove_quotes_concat, split_comma_concat; [reflexivity|exact Hne| |].
  - eapply Forall_impl; [|exact Hall]. cbv beta. intros n [H _]. exact H.
  - eapply Forall_impl; [|exact Hall]. cbv beta. intros n [_ H]. exact H.
Qed.

Lemma extracted_header_quoted_witness :
  extracted_header
    ("Completed Orders"
       :: String.concat "," (map quoted ["Account"; "Status"; "Symbol"])
       :: ["A1,Filled,ES"])
  = Some ["Account"; "Status"; "Symbol"].
Proof.
  apply (extracted_header_quoted ["Account"; "Status"; "Symbol"] ["A1,Filled,ES"]).
  - discriminate.
  - repeat constructor.
Defined.

End TextFacts.

(** ** The loader: which runs return, and what a file contributes *)

Module LoaderFacts.
Import Series Normalizer Sample Page NormalizerFacts.

Local Open Scope string_scope.
Local Open Scope list_scope.

Lemma mapM_app {A B} (f : A -> result B) (l1 l2 : list A) :
  mapM f (l1 ++ l2) =
  bind (mapM f l1) (fun a => bind (mapM f l2) (fun b => Ok (a ++ b))).
Proof.
  induction l1 as [|x l1 IH]; simpl.
  - destruct (mapM f l2); reflexivity.
  - destruct (f x) as [y|e]; simpl; [|reflexivity].
    rewrite IH. destruct (mapM f l1); simpl; [|reflexivity].
    destruct (mapM f l2); reflexivity.
Qed.

Lemma mapM_length {A B} (f : A -> result B) (l : list A) (l' : list B) :
  mapM f l = Ok l' -> length l' = length l.
Proof.
  intros H. apply mapM_Ok in H. induction H; simpl; congruence.
Qed.

Lemma extract_no_marker (P : Pandas) (lines : list string) :
  find_start 0 lines = None -> extract_completed_orders P lines = Ok empty_frame.
Proof. unfold extract_completed_orders. intros ->. reflexivity. Qed.

Lemma add_columns_nil (acc : list string) : add_columns acc [] = acc.
Proof. reflexivity. Qed.

Lemma concat_skip_empty (dfs1 dfs2 : list DataFrame) :
  (dfs1 ++ dfs2) <> [] ->
  concat (dfs1 ++ empty_frame :: dfs2) = concat (dfs1 ++ dfs2).
Proof.
  intros Hne. unfold concat.
  destruct (dfs1 ++ dfs2) as [|d ds] eqn:E; [congruence|].
  destruct (dfs1 ++ empty_frame :: dfs2) as [|d' ds'] eqn:E';
    [destruct dfs1; discriminate|].
  rewrite <- E, <- E'. f_equal. f_equal.
  - rewrite !map_app, !fold_left_app. reflexivity.
  - rewrite !flat_map_app. reflexivity.
Qed.

(** X10.  A file without the marker contributes nothing: next to at least one
    other file, the run with it returns, or raises, exactly what the run
    without it does. *)
Theorem load_ignores_file_without_marker
  (P : Pandas) (fs1 fs2 : list (list string)) (f : list string) :
  find_start 0 f = None ->
  (fs1 ++ fs2) <> [] ->
  load_and_clean_data P (fs1 ++ f :: fs2) = load_and_clean_data P (fs1 ++ fs2).
Proof.
  intros Hf Hne.
  unfold load_and_clean_data, cleaned_rows, coerced_rows.
  rewrite !mapM_app. cbn [mapM]. rewrite (extract_no_marker P f Hf). cbn [bind].
  destruct (mapM (extract_completed_orders P) fs1) as [dfs1|e] eqn:E1;
    [|reflexivity].
  destruct (mapM (extract_completed_orders P) fs2) as [dfs2|e] eqn:E2;
    [|reflexivity].
  cbn [bind]. rewrite concat_skip_empty; [reflexivity|].
  intros Hnil. apply Hne.
  apply mapM_length in E1. apply mapM_length in E2.
  apply (f_equal (@length DataFrame)) in Hnil. rewrite length_app in Hnil.
  destruct fs1, fs2; simpl in *; try reflexivity; lia.
Qed.

Lemma load_ignores_file_without_marker_witness :
  load_and_clean_data pandas_keeping_ties ([file_ties] ++ ["no orders today"] :: [])
  = load_and_clean_data pandas_keeping_ties ([file_ties] ++ []).
Proof.
  apply (load_ignores_file_without_marker pandas_keeping_ties
           [file_ties] [] ["no orders today"]).
  - reflexivity.
  - discriminate.
Defined.

Lemma mapM_no_marker (P : Pandas) (files : list (list string)) :
  Forall (fun f => find_start 0 f = None) files ->
  mapM (extract_completed_orders P) files = Ok (map (fun _ => empty_frame) files).
Proof.
  induction 1 as [|f files Hf _ IH]; [reflexivity|].
  simpl. rewrite (extract_no_marker P f Hf), IH. reflexivity.
Qed.

Lemma merged_columns_empty (n : list (list string)) :
  fold_left add_columns (map columns (map (fun _ => empty_frame) n)) [] = [].
Proof. induction n; simpl; auto. Qed.

(** X11.  When no file of the run holds the marker, the run does not return
    an empty table: it raises the [KeyError] of line 111, for the column
    Status. *)
Theorem load_no_marker_anywhere (P : Pandas) (files : list (list string)) :
  files <> [] ->
  Forall (fun f => find_start 0 f = None) files ->
  load_and_clean_data P files = Raise (KeyError ["Status"]).
Proof.
  intros Hne Hall.
  unfold load_and_clean_data, cleaned_rows, coerced_rows.
  rewrite (mapM_no_marker P files Hall). cbn [bind].
  destruct files as [|f files]; [congruence|].
  unfold concat. cbn [map bind]. unfold filter_filled. cbn [columns].
  change (fold_left add_columns (columns empty_frame :: map columns (map (fun _ => empty_frame) files)) [])
    with (fold_left add_columns (map columns (map (fun _ => empty_frame) files)) []).
  rewrite merged_columns_empty. reflexivity.
Qed.

Lemma load_no_marker_anywhere_witness :
  load_and_clean_data pandas_keeping_ties [["Account,Status"; "A1,Filled"]; []]
  = Raise (KeyError ["Status"]).
Proof.
  apply (load_no_marker_anywhere pandas_keeping_ties).
  - discriminate.
  - repeat constructor.
Defined.

Lemma find_start_app (pre : list string) (line : string) : forall i0,
  Forall (fun l => contains "Completed Orders" l = false) pre ->
  contains "Completed Orders" line = true ->
  find_start i0 (pre ++ [line]) = Some (S (i0 + length pre)).
Proof.
  induction pre as [|x pre IH]; intros i0 Hpre Hline; simpl.
  - rewrite Hline. f_equal. lia.
  - inversion Hpre as [|? ? Hx Hrest]; subst. rewrite Hx.
    rewrite (IH (S i0) Hrest Hline). f_equal. lia.
Qed.

Lemma mapM_all_Ok {A B} (f : A -> result B) (l : list A) :
  Forall (fun a => exists b, f a = Ok b) l -> exists l', mapM f l = Ok l'.
Proof.
  induction 1 as [|a l (b & Hb) _ (l' & IH)]; simpl; [eauto|].
  rewrite Hb, IH. simpl. eauto.
Qed.

(** X12.  A file whose only line with the marker is its last line has no
    header line to read: line 104 raises [IndexError], and so does the whole
    run when the files before it were read. *)
Theorem load_marker_on_last_line
  (P : Pandas) (fs1 fs2 : list (list string)) (pre : list string) (line : string) :
  Forall (fun l => contains "Completed Orders" l = false) pre ->
  contains "Completed Orders" line = true ->
  Forall (fun g => exists df, extract_completed_orders P g = Ok df) fs1 ->
  extract_completed_orders P (pre ++ [line]) = Raise IndexError /\
  load_and_clean_data P (fs1 ++ (pre ++ [line]) :: fs2) = Raise IndexError.
Proof.
  intros Hpre Hline Hfs1.
  assert (Hx : extract_completed_orders P (pre ++ [line]) = Raise IndexError).
  { unfold extract_completed_orders.
    rewrite (find_start_app pre line 0 Hpre Hline). cbn [Nat.add].
    replace (nth_error (pre ++ [line]) (S (length pre))) with (@None string);
      [reflexivity|].
    symmetry. apply nth_error_None. rewrite length_app. simpl. lia. }
  split; [exact Hx|].
  unfold load_and_clean_data, cleaned_rows, coerced_rows.
  rewrite mapM_app. destruct (mapM_all_Ok _ _ Hfs1) as (dfs1 & ->).
  cbn [bind mapM]. rewrite Hx. reflexivity.
Qed.

Lemma load_marker_on_last_line_witness :
  extract_completed_orders pandas_keeping_ties (["Open Orders"] ++ ["Completed Orders"])
    = Raise IndexError /\
  load_and_clean_data pandas_keeping_ties
    ([file_ties] ++ (["Open Orders"] ++ ["Completed Orders"]) :: [file_dirty])
    = Raise IndexError.
Proof.
  apply (load_marker_on_last_line pandas_keeping_ties [file_ties] [file_dirty]
           ["Open Orders"] "Completed Orders").
  - repeat constructor.
  - reflexivity.
  - repeat constructor. eexists. vm_compute. reflexivity.
Defined.

(** *** When the run returns *)

Lemma add_columns_In_iff (c : string) (new : list string) : forall acc,
  In c (add_columns acc new) <-> In c acc \/ In c new.
Proof.
  intros acc. split; [apply add_columns_In|].
  revert acc. unfold add_columns.
  induction new as [|x new IH]; intros acc H; simpl.
  - destruct H as [H|[]]. exact H.
  - apply IH. destruct H as [H|[->|H]]; [| |right; exact H].
    + left. destruct (has x acc); [exact H|apply in_or_app; left; exact H].
    + left. destruct (has c acc) eqn:E; [apply has_In; exact E|].
      apply in_or_app. right. left. reflexivity.
Qed.

Lemma merged_columns_In_iff (c : string) (cols : list (list string)) : forall acc,
  In c (fold_left add_columns cols acc) <->
  In c acc \/ exists cs, In cs cols /\ In c cs.
Proof.
  induction cols as [|cs cols IH]; intros acc; simpl.
  - split; [auto|]. intros [H|(cs & [] & _)]. exact H.
  - rewrite IH, add_columns_In_iff. split.
    + intros [[H|H]|(cs' & H1 & H2)]; [auto| |].
      * right. exists cs. auto.
      * right. exists cs'. auto.
    + intros [H|(cs' & [->|H1] & H2)]; [auto|auto|].
      right. exists cs'. auto.
Qed.

Lemma extract_header_columns (P : Pandas) (lines h : list string) (df : DataFrame) :
  extract_completed_orders P lines = Ok df ->
  extracted_header lines = Some h -> columns df = h.
Proof.
  unfold extract_completed_orders, extracted_header, read_csv.
  destruct (find_start 0 lines) as [start|]; [|discriminate].
  destruct (nth_error lines start) as [line|]; [|discriminate].
  intros H Hh. bind_inv H. inversion H; subst. inversion Hh; subst. reflexivity.
Qed.

Lemma Forall2_In_l {A B} (R : A -> B -> Prop) (l : list A) (l' : list B) (a : A) :
  Forall2 R l l' -> In a l -> exists b, In b l' /\ R a b.
Proof.
  induction 1 as [|x y l l' Hxy _ IH]; intros Hin; [destruct Hin|].
  destruct Hin as [<-|Hin].
  - exists y. simpl. auto.
  - destruct (IH Hin) as (b & Hb & HR). exists b. simpl. auto.
Qed.

(** The merged table has a column exactly when the header of some file of the
    run has it. *)
Lemma merged_columns_headers (P : Pandas) (files : list (list string))
      (dfs : list DataFrame) (c : string) :
  mapM (extract_completed_orders P) files = Ok dfs ->
  (In c (merged_columns dfs) <->
   exists f h, In f files /\ extracted_header f = Some h /\ In c h).
Proof.
  intros Hm. apply mapM_Ok in Hm. unfold merged_columns.
  rewrite merged_columns_In_iff. split.
  - intros [[]|(cs & Hcs & Hc)].
    apply in_map_iff in Hcs. destruct Hcs as (d & <- & Hd).
    destruct (Forall2_In_r _ _ _ _ Hm Hd) as (f & Hf & Hext).
    apply extract_columns in Hext. destruct Hext as [E|E].
    + rewrite E in Hc. destruct Hc.
    + exists f, (columns d). auto.
  - intros (f & h & Hf & Hh & Hc). right.
    destruct (Forall2_In_l _ _ _ _ Hm Hf) as (d & Hd & Hext).
    exists (columns d). split; [apply in_map; exact Hd|].
    rewrite (extract_header_columns P f h d Hext Hh). exact Hc.
Qed.

Lemma project_Ok_iff (df : DataFrame) :
  (exists sel, project df = Ok sel) <->
  Forall (fun c => In c (columns df)) required_columns.
Proof.
  unfold project.
  destruct (filter (fun c => negb (has c (columns df))) required_columns)
    as [|m ms] eqn:E.
  - split; [intros _|eauto].
    apply Forall_forall. intros c Hc. apply has_In.
    destruct (has c (columns df)) eqn:Eh; [reflexivity|].
    assert (In c []) as [].
    rewrite <- E. apply filter_In. rewrite Eh. auto.
  - split; [intros (sel & H); discriminate|].
    intros Hall. exfalso.
    assert (Hm : In m (filter (fun c => negb (has c (columns df))) required_columns))
      by (rewrite E; left; reflexivity).
    apply filter_In in Hm. destruct Hm as [Hreq Hneg].
    rewrite Forall_forall in Hall. apply Hall, has_In in Hreq.
    rewrite Hreq in Hneg. discriminate.
Qed.

Lemma select_Ok_iff (df : DataFrame) :
  (exists sel, bind (filter_filled df) project = Ok sel) <->
  Forall (fun c => In c (columns df)) ("Status" :: required_columns).
Proof.
  unfold filter_filled.
  destruct (has "Status" (columns df)) eqn:Es; cbn [bind].
  - rewrite project_Ok_iff. cbn [columns]. apply has_In in Es.
    split; [intros H; constructor; assumption|].
    intros H. inversion H; subst. assumption.
  - split; [intros (sel & H); discriminate|].
    intros H. inversion H as [|? ? Hst _]; subst.
    apply has_In in Hst. congruence.
Qed.

Lemma concat_columns (dfs : list DataFrame) (df : DataFrame) :
  concat dfs = Ok df -> columns df = merged_columns dfs.
Proof.
  unfold concat. destruct dfs; [discriminate|].
  intros H. inversion H. reflexivity.
Qed.

Lemma load_Ok_coerced (P : Pandas) (files : list (list string)) :
  (exists out, load_and_clean_data P files = Ok out) <->
  (exists trades, coerced_rows P files = Ok trades).
Proof.
  unfold load_and_clean_data, cleaned_rows.
  destruct (coerced_rows P files); cbn [bind].
  - split; eauto.
  - split; intros (x & H); discriminate.
Qed.

(** X13.  The run returns a table exactly when there is at least one file,
    every file can be read, and each of the nine columns the loader names,
    Status and the eight it keeps, is in the header of at least one file. *)
Theorem load_returns_iff (P : Pandas) (files : list (list string)) :
  (exists out, load_and_clean_data P files = Ok out) <->
  files <> [] /\
  (exists dfs, mapM (extract_completed_orders P) files = Ok dfs) /\
  Forall (fun c => exists f h, In f files /\ extracted_header f = Some h /\ In c h)
         ("Status" :: required_columns).
Proof.
  rewrite load_Ok_coerced. unfold coerced_rows.
  destruct (mapM (extract_completed_orders P) files) as [dfs|e] eqn:Em.
  2:{ split; [intros (out & H); discriminate|].
      intros (_ & (dfs & H) & _). discriminate. }
  cbn [bind].
  assert (Hcols : forall c,
    In c (merged_columns dfs) <->
    exists f h, In f files /\ extracted_header f = Some h /\ In c h)
    by (intros c; apply (merged_columns_headers P files dfs c Em)).
  destruct (concat dfs) as [df|e] eqn:Ec.
  2:{ unfold concat in Ec. destruct dfs; [|discriminate].
      apply mapM_length in Em. destruct files; [|discriminate].
      split; [intros (out & H); discriminate|intros (H & _); congruence]. }
  assert (Hfiles : files <> []).
  { intros ->. inversion Em; subst. discriminate. }
  cbn [bind].
  pose proof (select_Ok_iff df) as Hsel.
  rewrite (concat_columns dfs df Ec) in Hsel.
  split.
  - intros (trades & H).
    split; [exact Hfiles|]. split; [eauto|].
    eapply Forall_impl; [intros c Hc; apply Hcols; exact Hc|].
    apply Hsel.
    destruct (filter_filled df) as [df'|e]; [|discriminate]. cbn [bind] in *.
    destruct (project df') as [sel|e]; [eauto|discriminate].
  - intros (_ & _ & Hall).
    assert (Hs : exists sel, bind (filter_filled df) project = Ok sel).
    { apply Hsel. eapply Forall_impl; [intros c Hc; apply Hcols; exact Hc|].
      exact Hall. }
    destruct Hs as (sel & Hs).
    destruct (filter_filled df) as [df'|e]; [|discriminate]. cbn [bind] in *.
    rewrite Hs. cbn [bind]. eauto.
Qed.

(** *** What the rows hold *)

Lemma map_nth_seq {A} (l : list A) (d : A) :
  map (fun i => nth i l d) (seq 0 (length l)) = l.
Proof.
  induction l as [|x l IH]; [reflexivity|].
  simpl. f_equal. rewrite <- seq_shift, map_map. exact IH.
Qed.

Lemma clean_length (P : Pandas) (sel : list Row) :
  length (clean P sel) = length sel.
Proof. unfold clean. rewrite length_map, length_seq. reflexivity. Qed.

Lemma clean_copied (P : Pandas) (sel : list Row) :
  map 账户 (clean P sel) = column "Account" sel /\
  map 品种 (clean P sel) = column "Symbol" sel /\
  map 方向 (clean P sel) = map map_side (column "Buy/Sell" sel).
Proof.
  unfold clean. rewrite !map_map. cbn [账户 品种 方向].
  repeat split.
  - replace (length sel) with (length (column "Account" sel))
      by (unfold column; apply length_map).
    apply map_nth_seq.
  - replace (length sel) with (length (column "Symbol" sel))
      by (unfold column; apply length_map).
    apply map_nth_seq.
  - replace (length sel) with (length (map map_side (column "Buy/Sell" sel)))
      by (unfold column; rewrite !length_map; reflexivity).
    apply map_nth_seq.
Qed.

Lemma coerced_rows_from (P : Pandas) (files : list (list string)) (trades : list Trade) :
  coerced_rows P files = Ok trades ->
  exists dfs, mapM (extract_completed_orders P) files = Ok dfs /\
              trades = clean P (filter filled (flat_map rows dfs)).
Proof.
  unfold coerced_rows. intros H.
  bind_inv H. exists a. split; [exact Ha|].
  bind_inv H. bind_inv H. bind_inv H. inversion H; subst. clear H.
  unfold concat in Ha0. destruct a as [|d ds]; [discriminate|].
  inversion Ha0; subst. clear Ha0.
  unfold filter_filled in Ha1. cbn [columns rows] in Ha1.
  destruct (has "Status" _); [|discriminate]. inversion Ha1; subst. clear Ha1.
  unfold project in Ha2. cbn [columns rows] in Ha2.
  destruct (filter _ required_columns); [|discriminate].
  inversion Ha2; subst. reflexivity.
Qed.

(** X14.  Before line 122 the table has one row for each row of the files
    whose Status is Filled, in the order of the files, and no other: account
    and symbol are copied as read and the side is the mapped Buy/Sell field.
    The table the loader returns has at most that many rows. *)
Theorem load_rows_are_filled_rows
  (P : Pandas) (files : list (list string)) (out : list Trade) :
  PandasSpec P ->
  load_and_clean_data P files = Ok out ->
  exists dfs trades,
    mapM (extract_completed_orders P) files = Ok dfs /\
    coerced_rows P files = Ok trades /\
    length trades = length (filter filled (flat_map rows dfs)) /\
    map 账户 trades = column "Account" (filter filled (flat_map rows dfs)) /\
    map 品种 trades = column "Symbol" (filter filled (flat_map rows dfs)) /\
    map 方向 trades =
      map map_side (column "Buy/Sell" (filter filled (flat_map rows dfs))) /\
    (length out <= length (filter filled (flat_map rows dfs)))%nat.
Proof.
  intros HP H. apply load_steps in H. destruct H as (trades & Hc & _ & ->).
  destruct (coerced_rows_from P files trades Hc) as (dfs & Hm & ->).
  exists dfs, (clean P (filter filled (flat_map rows dfs))).
  destruct (clean_copied P (filter filled (flat_map rows dfs))) as (H1 & H2 & H3).
  repeat split; try assumption.
  - apply clean_length.
  - rewrite <- (Permutation_length (sort_values_perm P HP _)).
    rewrite <- (clean_length P (filter filled (flat_map rows dfs))).
    apply filter_length_le.
Qed.

Lemma load_rows_are_filled_rows_witness :
  exists dfs trades,
    mapM (extract_completed_orders pandas_keeping_ties) [file_dirty] = Ok dfs /\
    coerced_rows pandas_keeping_ties [file_dirty] = Ok trades /\
    length trades = length (filter filled (flat_map rows dfs)) /\
    map 账户 trades = column "Account" (filter filled (flat_map rows dfs)) /\
    map 品种 trades = column "Symbol" (filter filled (flat_map rows dfs)) /\
    map 方向 trades =
      map map_side (column "Buy/Sell" (filter filled (flat_map rows dfs))) /\
    le (length [trade "A5" "Sell" "NQ" 14 1 90 0 (Some 4)])
       (length (filter filled (flat_map rows dfs))).
Proof.
  apply (load_rows_are_filled_rows pandas_keeping_ties [file_dirty]).
  - exact pandas_keeping_ties_spec.
  - vm_compute. reflexivity.
Defined.

(** X15.  Where [to_numeric] answers a column as long as the one it is given,
    every row the loader returns has a commission that is a number: line 120
    put 0 where the field did not convert. *)
Theorem load_commission_filled
  (P : Pandas) (files : list (list string)) (out : list Trade) :
  PandasSpec P ->
  (forall col, length (to_numeric P col) = length col) ->
  load_and_clean_data P files = Ok out ->
  Forall (fun t => exists fee, 手续费 t = Some fee) out.
Proof.
  intros HP Hlen H. apply load_steps in H. destruct H as (trades & Hc & _ & ->).
  destruct (coerced_rows_from P files trades Hc) as (dfs & _ & ->).
  apply Forall_forall. intros t Ht.
  apply (Permutation_in _ (Permutation_sym (sort_values_perm P HP _))) in Ht.
  apply filter_In in Ht. destruct Ht as [Ht _].
  unfold clean in Ht. apply in_map_iff in Ht. destruct Ht as (i & <- & Hi).
  cbn [手续费]. apply in_seq in Hi.
  set (sel := filter filled (flat_map rows dfs)) in *.
  set (fees := to_numeric P (column "Commission Fill Rate" sel)).
  assert (Hi' : (i < length (map (fillna 0) fees))%nat).
  { rewrite length_map. unfold fees. rewrite Hlen. unfold column.
    rewrite length_map. lia. }
  assert (E : nth i (map (fillna 0) fees) None = fillna 0 (nth i fees None)).
  { etransitivity; [apply (nth_indep _ None (fillna 0 None) Hi')|apply map_nth]. }
  destruct (nth i fees None); simpl in E; eauto.
Qed.

Lemma load_commission_filled_witness :
  Forall (fun t => exists fee, 手续费 t = Some fee)
         [trade "A5" "Sell" "NQ" 14 1 90 0 (Some 4)].
Proof.
  apply (load_commission_filled pandas_keeping_ties [file_dirty]).
  - exact pandas_keeping_ties_spec.
  - intros col. simpl. apply length_map.
  - vm_compute. reflexivity.
Defined.

End LoaderFacts.

(** ** The page: symbols, days and hours *)

Module PageFacts.
Import Series Metrics Normalizer Sample Page NormalizerFacts.

Local Open Scope string_scope.
Local Open Scope list_scope.

(** *** The list of symbols and the selection *)

Lemma cell_eqb_eq (a b : cell) : cell_eqb a b = true <-> a = b.
Proof.
  destruct a as [x|], b as [y|]; simpl; try (split; [discriminate|congruence]).
  - rewrite String.eqb_eq. split; congruence.
  - split; reflexivity.
Qed.

Lemma isin_In (c : cell) (values : list cell) : isin c values = true <-> In c values.
Proof.
  unfold isin. rewrite existsb_exists. split.
  - intros (x & Hx & E). apply cell_eqb_eq in E. subst. exact Hx.
  - intros H. exists c. split; [exact H|apply cell_eqb_eq; reflexivity].
Qed.

Lemma unique_In (c : cell) (l : list cell) : In c (unique l) <-> In c l.
Proof.
  induction l as [|x l IH]; simpl; [reflexivity|].
  rewrite filter_In, IH. split.
  - intros [H|[H _]]; auto.
  - intros [H|H]; [auto|].
    destruct (cell_eqb c x) eqn:E.
    + apply cell_eqb_eq in E. auto.
    + right. split; [exact H|reflexivity].
Qed.

Lemma unique_NoDup (l : list cell) : NoDup (unique l).
Proof.
  induction l as [|x l IH]; simpl; constructor.
  - rewrite filter_In. intros [_ H].
    rewrite (proj2 (cell_eqb_eq x x) eq_refl) in H. discriminate.
  - apply NoDup_filter. exact IH.
Qed.

Lemma strings_Some (l : list cell) (ss : list string) :
  strings l = Some ss -> l = map Some ss.
Proof.
  revert ss. induction l as [|[x|] l IH]; intros ss H; simpl in H.
  - inversion H. reflexivity.
  - destruct (strings l) as [ss'|]; [|discriminate].
    inversion H; subst. simpl. f_equal. apply IH. reflexivity.
  - discriminate.
Qed.

Lemma strings_None (l : list cell) : strings l = None <-> In None l.
Proof.
  induction l as [|[x|] l IH]; simpl.
  - split; [discriminate|intros []].
  - destruct (strings l); simpl.
    + split; [discriminate|]. intros [H|H]; [discriminate|].
      apply IH in H. discriminate.
    + split; [intros _; right; apply IH; reflexivity|reflexivity].
  - split; auto.
Qed.

Lemma all_null_spec (l : list cell) :
  forallb (fun c => negb (notna c)) l = true <-> Forall (fun c => c = None) l.
Proof.
  rewrite forallb_forall, Forall_forall. split; intros H c Hc.
  - specialize (H c Hc). destruct c; [discriminate|reflexivity].
  - rewrite (H c Hc). reflexivity.
Qed.

Lemma insert_str_perm (x : string) (l : list string) :
  Permutation (x :: l) (insert_str x l).
Proof.
  induction l as [|y l IH]; simpl; [reflexivity|].
  destruct (String.leb x y); [reflexivity|].
  rewrite perm_swap. apply perm_skip. exact IH.
Qed.

Lemma sort_str_perm (l : list string) : Permutation l (sort_str l).
Proof.
  induction l as [|x l IH]; simpl; [reflexivity|].
  rewrite <- insert_str_perm. apply perm_skip. exact IH.
Qed.

Lemma insert_str_sorted (x : string) (l : list string) :
  Sorted str_le l -> Sorted str_le (insert_str x l).
Proof.
  induction 1 as [|y l Hs IH Hh]; simpl; [repeat constructor|].
  destruct (String.leb x y) eqn:E.
  - constructor; [constructor; assumption|]. constructor. exact E.
  - assert (Hyx : str_le y x).
    { destruct (String.leb_total x y) as [H|H]; [congruence|exact H]. }
    constructor; [exact IH|].
    destruct l as [|z l]; simpl.
    + constructor. exact Hyx.
    + destruct (String.leb x z).
      * constructor. exact Hyx.
      * inversion Hh; subst. constructor. assumption.
Qed.

Lemma sort_str_sorted (l : list string) : Sorted str_le (sort_str l).
Proof.
  induction l as [|x l IH]; simpl; [constructor|].
  apply insert_str_sorted. exact IH.
Qed.

Lemma leb_neq_ltb (a b : string) :
  String.leb a b = true -> a <> b -> String.ltb a b = true.
Proof.
  unfold String.leb, String.ltb. intros Hle Hne.
  destruct (String.compare a b) eqn:E; try reflexivity; try discriminate.
  apply String.compare_eq_iff in E. contradiction.
Qed.

(** What [sorted] answers, when it answers: the same values, each once if
    they were there once, strings in strictly ascending order. *)
Lemma sorted_Some (l l' : list cell) :
  sorted l = Some l' ->
  Permutation l l' /\
  (NoDup l ->
   forall i a b, nth_error l' i = Some (Some a) ->
                 nth_error l' (S i) = Some (Some b) -> String.ltb a b = true).
Proof.
  unfold sorted.
  destruct (forallb (fun c => negb (notna c)) l) eqn:En.
  - intros H. inversion H; subst l'. split; [reflexivity|].
    apply all_null_spec in En. rewrite Forall_forall in En.
    intros _ i a b Ha _. apply nth_error_In, En in Ha. discriminate.
  - destruct (strings l) as [ss|] eqn:Es; [|discriminate].
    intros H. inversion H; subst l'. clear H.
    apply strings_Some in Es. subst l.
    split; [apply Permutation_map, sort_str_perm|].
    intros Hnd i a b Ha Hb.
    rewrite nth_error_map in Ha, Hb.
    destruct (nth_error (sort_str ss) i) as [a'|] eqn:Ea; [|discriminate].
    destruct (nth_error (sort_str ss) (S i)) as [b'|] eqn:Eb; [|discriminate].
    inversion Ha; inversion Hb; subst.
    apply leb_neq_ltb.
    + exact (Sorted_adjacent _ _ (sort_str_sorted ss) i a b Ea Eb).
    + intros ->.
      assert (Hnd' : NoDup (sort_str ss)).
      { apply (Permutation_NoDup (sort_str_perm ss)).
        apply (NoDup_map_inv Some). exact Hnd. }
      rewrite NoDup_nth_error in Hnd'.
      assert (i = S i); [|lia].
      apply Hnd'; [|congruence].
      apply nth_error_Some. congruence.
Qed.

Lemma time_le_trans : Relations_1.Transitive time_le.
Proof.
  intros a b c. unfold time_le.
  destruct (时间 a), (时间 b), (时间 c); try tauto. lia.
Qed.

Lemma StronglySorted_filter {A} (R : A -> A -> Prop) (f : A -> bool) (l : list A) :
  StronglySorted R l -> StronglySorted R (filter f l).
Proof.
  induction 1 as [|x l Hs IH Hall]; simpl; [constructor|].
  destruct (f x); [|exact IH].
  constructor; [exact IH|].
  rewrite Forall_forall in *. intros y Hy. apply filter_In in Hy. apply Hall, Hy.
Qed.

(** X16.  Line 133 keeps what the loader established.  Whatever symbols are
    selected, the rows kept are rows of the loaded table with a selected
    symbol, each with a time and a price that are not null, and any two
    neighbouring rows are in ascending order of time; and selecting the whole
    list of line 131, the default of the page, keeps every row. *)
Theorem select_symbols_keeps_order
  (P : Pandas) (files : list (list string)) (out : list Trade)
  (selected_symbols : list cell) :
  PandasSpec P ->
  load_and_clean_data P files = Ok out ->
  (forall t, In t (select_symbols selected_symbols out) <->
             In t out /\ In (品种 t) selected_symbols) /\
  Forall (fun t => 时间 t <> None /\ 价格 t <> None /\ 方向 t <> None)
         (select_symbols selected_symbols out) /\
  (forall i a b,
     nth_error (select_symbols selected_symbols out) i = Some a ->
     nth_error (select_symbols selected_symbols out) (S i) = Some b ->
     exists ta tb, 时间 a = Some ta /\ 时间 b = Some tb /\ (ta <= tb)%Z) /\
  (forall syms, all_symbols out = Some syms -> select_symbols syms out = out).
Proof.
  intros HP H. apply load_steps in H. destruct H as (trades & _ & _ & ->).
  set (out := sort_values P (filter complete trades)).
  assert (Hcomplete : forall t, In t out ->
            时间 t <> None /\ 价格 t <> None /\ 方向 t <> None).
  { intros t Ht.
    apply (Permutation_in _ (Permutation_sym (sort_values_perm P HP _))) in Ht.
    apply filter_In in Ht. apply complete_fields, Ht. }
  assert (Hmem : forall t, In t (select_symbols selected_symbols out) <->
                           In t out /\ In (品种 t) selected_symbols).
  { intros t. unfold select_symbols. rewrite filter_In, isin_In. reflexivity. }
  split; [exact Hmem|]. split; [|split].
  - apply Forall_forall. intros t Ht. apply Hcomplete, Hmem, Ht.
  - intros i a b Ha Hb.
    assert (Hs : Sorted time_le (select_symbols selected_symbols out)).
    { apply StronglySorted_Sorted, StronglySorted_filter.
      apply Sorted_StronglySorted; [exact time_le_trans|].
      apply sort_values_sorted. exact HP. }
    pose proof (Sorted_adjacent _ _ Hs i a b Ha Hb) as Hle.
    destruct (Hcomplete a) as (Hta & _); [apply Hmem, (nth_error_In _ _ Ha)|].
    destruct (Hcomplete b) as (Htb & _); [apply Hmem, (nth_error_In _ _ Hb)|].
    unfold time_le in Hle.
    destruct (时间 a) as [ta|]; [|congruence].
    destruct (时间 b) as [tb|]; [|congruence].
    exists ta, tb. auto.
  - intros syms Hsyms. unfold all_symbols in Hsyms.
    apply sorted_Some in Hsyms. destruct Hsyms as (Hperm & _).
    unfold select_symbols. apply forallb_filter_id.
    apply forallb_forall. intros t Ht. apply isin_In.
    apply (Permutation_in _ Hperm), unique_In, in_map, Ht.
Qed.

Lemma select_symbols_keeps_order_witness :
  (forall t, In t (select_symbols [Some "ES"]
                     [trade "A3" "Buy" "NQ" 12 1 50 2 (Some (-3));
                      trade "A1" "Buy" "ES" 10 1 100 2 (Some 5);
                      trade "A2" "Sell" "ES" 11 1 100 2 (Some 7)]) <->
             In t [trade "A3" "Buy" "NQ" 12 1 50 2 (Some (-3));
                   trade "A1" "Buy" "ES" 10 1 100 2 (Some 5);
                   trade "A2" "Sell" "ES" 11 1 100 2 (Some 7)] /\
             In (品种 t) [Some "ES"]) /\
  Forall (fun t => 时间 t <> None /\ 价格 t <> None /\ 方向 t <> None)
         (select_symbols [Some "ES"]
            [trade "A3" "Buy" "NQ" 12 1 50 2 (Some (-3));
             trade "A1" "Buy" "ES" 10 1 100 2 (Some 5);
             trade "A2" "Sell" "ES" 11 1 100 2 (Some 7)]) /\
  (forall i a b,
     nth_error (select_symbols [Some "ES"]
                  [trade "A3" "Buy" "NQ" 12 1 50 2 (Some (-3));
                   trade "A1" "Buy" "ES" 10 1 100 2 (Some 5);
                   trade "A2" "Sell" "ES" 11 1 100 2 (Some 7)]) i = Some a ->
     nth_error (select_symbols [Some "ES"]
                  [trade "A3" "Buy" "NQ" 12 1 50 2 (Some (-3));
                   trade "A1" "Buy" "ES" 10 1 100 2 (Some 5);
                   trade "A2" "Sell" "ES" 11 1 100 2 (Some 7)]) (S i) = Some b ->
     exists ta tb, 时间 a = Some ta /\ 时间 b = Some tb /\ (ta <= tb)%Z) /\
  (forall syms,
     all_symbols [trade "A3" "Buy" "NQ" 12 1 50 2 (Some (-3));
                  trade "A1" "Buy" "ES" 10 1 100 2 (Some 5);
                  trade "A2" "Sell" "ES" 11 1 100 2 (Some 7)] = Some syms ->
     select_symbols syms
       [trade "A3" "Buy" "NQ" 12 1 50 2 (Some (-3));
        trade "A1" "Buy" "ES" 10 1 100 2 (Some 5);
        trade "A2" "Sell" "ES" 11 1 100 2 (Some 7)]
     = [trade "A3" "Buy" "NQ" 12 1 50 2 (Some (-3));
        trade "A1" "Buy" "ES" 10 1 100 2 (Some 5);
        trade "A2" "Sell" "ES" 11 1 100 2 (Some 7)]).
Proof.
  apply (select_symbols_keeps_order pandas_keeping_ties [file_ties]).
  - exact pandas_keeping_ties_spec.
  - vm_compute. reflexivity.
Defined.

(** *** Groups by day and by hour *)

Lemma insert_group_total (k : Z) (x : float64) (g : list (Z * Series)) :
  group_total (insert_group k x g) == fillna0 x + group_total g.
Proof.
  unfold group_total.
  induction g as [|[k' vs] g IH]; simpl.
  - destruct x; simpl; ring.
  - destruct (k =? k')%Z; [|destruct (k <? k')%Z].
    + destruct x; simpl; ring.
    + destruct x; simpl; ring.
    + simpl. simpl in IH. rewrite IH. ring.
Qed.

Lemma insert_group_keys (k k0 : Z) (x : float64) (g : list (Z * Series)) :
  In k0 (map fst (insert_group k x g)) <-> k0 = k \/ In k0 (map fst g).
Proof.
  induction g as [|[k' vs] g IH]; simpl.
  - intuition congruence.
  - destruct (Z.eqb_spec k k'); [|destruct (k <? k')%Z]; simpl.
    + subst. intuition congruence.
    + intuition congruence.
    + rewrite IH. intuition congruence.
Qed.

Lemma insert_group_sorted (k : Z) (x : float64) (g : list (Z * Series)) :
  StronglySorted Z.lt (map fst g) ->
  StronglySorted Z.lt (map fst (insert_group k x g)).
Proof.
  induction g as [|[k' vs] g IH]; intros Hs; simpl.
  - repeat constructor.
  - simpl in Hs. inversion Hs as [|? ? Hs' Hall]; subst.
    destruct (Z.eqb_spec k k'); [|destruct (Z.ltb_spec k k')]; simpl.
    + constructor; assumption.
    + constructor; [exact Hs|].
      constructor; [exact H|].
      eapply Forall_impl; [|exact Hall]. cbv beta. intros; lia.
    + constructor; [apply IH; exact Hs'|].
      apply Forall_forall. intros k0 Hk0. apply insert_group_keys in Hk0.
      rewrite Forall_forall in Hall.
      destruct Hk0 as [->|Hk0]; [lia|apply Hall; exact Hk0].
Qed.

Lemma groupby_sorted (keys : list (option Z)) (values : Series) :
  StronglySorted Z.lt (map fst (groupby keys values)).
Proof.
  unfold groupby.
  induction (combine keys values) as [|[[k|] x] l IH]; simpl.
  - constructor.
  - apply insert_group_sorted. exact IH.
  - exact IH.
Qed.

Lemma groupby_keys (keys : list (option Z)) (values : Series) (k : Z) :
  length keys = length values ->
  (In k (map fst (groupby keys values)) <-> In (Some k) keys).
Proof.
  unfold groupby. revert values.
  induction keys as [|[k'|] keys IH]; intros [|x values] Hlen;
    try discriminate; simpl.
  - tauto.
  - rewrite insert_group_keys, (IH values) by (simpl in Hlen; lia).
    intuition congruence.
  - rewrite (IH values) by (simpl in Hlen; lia).
    intuition congruence.
Qed.

Lemma groupby_total (keys : list (option Z)) (values : Series) :
  length keys = length values ->
  Forall (fun k => k <> None) keys ->
  group_total (groupby keys values) == Qsum (map fillna0 values).
Proof.
  unfold groupby. revert values.
  induction keys as [|k keys IH]; intros [|x values] Hlen Hall;
    try discriminate; simpl.
  - reflexivity.
  - inversion Hall as [|? ? Hk Hrest]; subst.
    destruct k as [k|]; [|congruence].
    rewrite insert_group_total, (IH values) by (simpl in Hlen; auto; lia).
    reflexivity.
Qed.

Lemma Qsum_dropna (s : Series) : Qsum (dropna s) == Qsum (map fillna0 s).
Proof.
  induction s as [|[q|] s IH]; simpl; [reflexivity| |]; rewrite IH; ring.
Qed.

(** X22.  The table of line 141 has one row for each day on which a row of
    [df] falls, days in strictly ascending order; and when every row has a
    time, the daily amounts add up to the sum of all the 盈亏 that are
    numbers. *)
Theorem daily_pnl_conserves_total (df : list Trade) :
  Forall (fun t => 时间 t <> None) df ->
  StronglySorted Z.lt (map fst (daily_pnl df)) /\
  (forall day, In day (map fst (daily_pnl df)) <->
               exists t, In t df /\ 日期 t = Some day) /\
  Qsum (map snd (daily_pnl df)) == Qsum (dropna (map 盈亏 df)).
Proof.
  intros Htime. unfold daily_pnl.
  assert (Hlen : length (map 日期 df) = length (map 盈亏 df))
    by (rewrite !length_map; reflexivity).
  rewrite !map_map. cbn [fst snd].
  change (map (fun x : Z * Series => fst x)) with (map (@fst Z Series)).
  split; [apply groupby_sorted|]. split.
  - intros day. rewrite (groupby_keys _ _ day Hlen), in_map_iff.
    split; intros (t & H1 & H2); exists t; auto.
  - rewrite Qsum_dropna.
    rewrite <- (groupby_total (map 日期 df) (map 盈亏 df) Hlen); [reflexivity|].
    apply Forall_forall. intros k Hk. apply in_map_iff in Hk.
    destruct Hk as (t & <- & Ht). rewrite Forall_forall in Htime.
    specialize (Htime t Ht). unfold 日期. destruct (时间 t); [discriminate|congruence].
Qed.

Lemma daily_pnl_conserves_total_witness :
  StronglySorted Z.lt
    (map fst (daily_pnl [trade "A1" "Buy" "ES" 10 1 100 2 (Some 5);
                         trade "A2" "Sell" "ES" 11 1 86400000000000 2 NaN;
                         trade "A3" "Buy" "NQ" 12 1 86400000000001 2 (Some (-3))])) /\
  (forall day,
     In day (map fst (daily_pnl [trade "A1" "Buy" "ES" 10 1 100 2 (Some 5);
                                 trade "A2" "Sell" "ES" 11 1 86400000000000 2 NaN;
                                 trade "A3" "Buy" "NQ" 12 1 86400000000001 2 (Some (-3))])) <->
     exists t, In t [trade "A1" "Buy" "ES" 10 1 100 2 (Some 5);
                     trade "A2" "Sell" "ES" 11 1 86400000000000 2 NaN;
                     trade "A3" "Buy" "NQ" 12 1 86400000000001 2 (Some (-3))] /\
               日期 t = Some day) /\
  Qsum (map snd (daily_pnl [trade "A1" "Buy" "ES" 10 1 100 2 (Some 5);
                            trade "A2" "Sell" "ES" 11 1 86400000000000 2 NaN;
                            trade "A3" "Buy" "NQ" 12 1 86400000000001 2 (Some (-3))]))
  == Qsum (dropna (map 盈亏 [trade "A1" "Buy" "ES" 10 1 100 2 (Some 5);
                             trade "A2" "Sell" "ES" 11 1 86400000000000 2 NaN;
                             trade "A3" "Buy" "NQ" 12 1 86400000000001 2 (Some (-3))])).
Proof.
  apply (daily_pnl_conserves_total
           [trade "A1" "Buy" "ES" 10 1 100 2 (Some 5);
            trade "A2" "Sell" "ES" 11 1 86400000000000 2 NaN;
            trade "A3" "Buy" "NQ" 12 1 86400000000001 2 (Some (-3))]).
  repeat constructor; discriminate.
Defined.

Lemma sorted_range_length (l : list Z) : forall lo hi,
  StronglySorted Z.lt l -> Forall (fun k => (lo <= k < hi)%Z) l ->
  (Z.of_nat (length l) <= Z.max 0 (hi - lo))%Z.
Proof.
  induction l as [|x l IH]; intros lo hi Hs Hr; simpl length.
  - lia.
  - inversion Hs as [|? ? Hs' Hall]; subst.
    inversion Hr as [|? ? Hx Hr']; subst.
    assert (Hl : (Z.of_nat (length l) <= Z.max 0 (hi - (x + 1)))%Z).
    { apply IH; [exact Hs'|].
      rewrite Forall_forall in *. intros k Hk.
      specialize (Hall k Hk). specialize (Hr' k Hk). lia. }
    lia.
Qed.

(** X23.  The table of line 142 has one row for each hour of the day in which
    a row of [df] falls, hours in strictly ascending order between 0 and 23,
    so 24 rows at most. *)
Theorem hourly_avg_pnl_hours (df : list Trade) :
  StronglySorted Z.lt (map fst (hourly_avg_pnl df)) /\
  Forall (fun h => (0 <= h <= 23)%Z) (map fst (hourly_avg_pnl df)) /\
  (length (hourly_avg_pnl df) <= 24)%nat /\
  (forall h, In h (map fst (hourly_avg_pnl df)) <->
             exists t, In t df /\ 小时 t = Some h).
Proof.
  unfold hourly_avg_pnl.
  assert (Hlen : length (map 小时 df) = length (map 盈亏 df))
    by (rewrite !length_map; reflexivity).
  rewrite length_map, !map_map. cbn [fst snd].
  change (map (fun x : Z * Series => fst x)) with (map (@fst Z Series)).
  assert (Hkeys : forall h, In h (map fst (groupby (map 小时 df) (map 盈亏 df))) <->
                            exists t, In t df /\ 小时 t = Some h).
  { intros h. rewrite (groupby_keys _ _ h Hlen), in_map_iff.
    split; intros (t & H1 & H2); exists t; auto. }
  assert (Hrange : Forall (fun h => (0 <= h < 24)%Z)
                          (map fst (groupby (map 小时 df) (map 盈亏 df)))).
  { apply Forall_forall. intros h Hh. apply Hkeys in Hh.
    destruct Hh as (t & _ & Ht). unfold 小时 in Ht.
    destruct (时间 t) as [ns|]; [|discriminate].
    inversion Ht. apply Z.mod_pos_bound. lia. }
  split; [apply groupby_sorted|]. split; [|split; [|exact Hkeys]].
  - eapply Forall_impl; [|exact Hrange]. cbv beta. intros; lia.
  - pose proof (sorted_range_length _ 0 24 (groupby_sorted _ _) Hrange) as Hl.
    rewrite length_map in Hl. lia.
Qed.

End PageFacts.

(** ** The metrics: win rate, streak lengths, running sum, drawdown *)

Module MetricFacts.
Import Series Metrics Page StreakFacts DrawdownFacts RatioFacts.

Local Open Scope list_scope.

(** *** Counting the winning rows *)

Lemma bump_total (k : nat) (g : list (nat * nat)) :
  list_sum (map snd (bump k g)) = S (list_sum (map snd g)).
Proof.
  induction g as [|[k' c] g IH]; simpl; [reflexivity|].
  destruct (k =? k')%nat; [reflexivity|].
  destruct (k <? k')%nat; [reflexivity|].
  simpl. rewrite IH. lia.
Qed.

Lemma groupby_size_total (l : list nat) :
  list_sum (map snd (groupby_size l)) = length l.
Proof.
  induction l as [|k l IH]; simpl; [reflexivity|].
  rewrite bump_total, IH. reflexivity.
Qed.

Lemma select_length (mask : Z -> bool) (r : list Z) : forall keys,
  length keys = length r ->
  length (select mask r keys) = length (filter mask r).
Proof.
  unfold select.
  induction r as [|x r IH]; intros [|k keys] Hlen; try discriminate; simpl.
  - reflexivity.
  - destruct (mask x); simpl; rewrite IH by (simpl in Hlen; lia); reflexivity.
Qed.

Lemma run_ids_length (rs : list (Z * nat)) : forall a,
  length (run_ids a rs) = list_sum (map snd rs).
Proof.
  induction rs as [|[v n] rs IH]; intros a; simpl; [reflexivity|].
  rewrite length_app, repeat_length, IH. reflexivity.
Qed.

Lemma streaks_length (pnl : Series) : length (streaks pnl) = length (results pnl).
Proof.
  rewrite streaks_run_ids, run_ids_length, <- expand_length, expand_runs.
  reflexivity.
Qed.

Lemma winners_count (pnl : Series) :
  length (filter (fun x => 0 <? x)%Z (results pnl)) = length (winners pnl).
Proof.
  unfold results, winners, classify.
  induction pnl as [|x pnl IH]; simpl; [reflexivity|].
  destruct (gt0 x); simpl; rewrite IH; reflexivity.
Qed.

Lemma losers_count (pnl : Series) :
  (length (filter (fun x => x <? 0)%Z (results pnl)) + length (winners pnl))%nat
  = length pnl.
Proof.
  unfold results, winners, classify.
  induction pnl as [|x pnl IH]; simpl; [reflexivity|].
  destruct (gt0 x); simpl; lia.
Qed.

Lemma win_streak_total (pnl : Series) :
  list_sum (win_streak_sizes pnl) = length (winners pnl).
Proof.
  unfold win_streak_sizes.
  rewrite groupby_size_total, select_length by apply streaks_length.
  apply winners_count.
Qed.

Lemma loss_streak_total (pnl : Series) :
  (list_sum (loss_streak_sizes pnl) + length (winners pnl))%nat = length pnl.
Proof.
  unfold loss_streak_sizes.
  rewrite groupby_size_total, select_length by apply streaks_length.
  apply losers_count.
Qed.

Lemma imax_None (l : list nat) : imax l = None <-> l = [].
Proof. destruct l; simpl; split; congruence. Qed.

Lemma list_sum_zero_positive (l : list nat) :
  Forall (fun n => (1 <= n)%nat) l -> list_sum l = 0%nat -> l = [].
Proof.
  destruct 1 as [|x l Hx _]; [reflexivity|]. simpl. lia.
Qed.

Lemma In_le_list_sum (m : nat) (l : list nat) : In m l -> (m <= list_sum l)%nat.
Proof.
  induction l as [|x l IH]; simpl; [intros []|].
  intros [->|H]; [lia|]. specialize (IH H). lia.
Qed.

Lemma run_lengths_positive (v : Z) (rs : list (Z * nat)) :
  Forall (fun p => (1 <= snd p)%nat) rs ->
  Forall (fun n => (1 <= n)%nat) (run_lengths v rs).
Proof.
  unfold run_lengths. intros H. apply Forall_forall. intros n Hn.
  apply in_map_iff in Hn. destruct Hn as (p & <- & Hp).
  apply filter_In in Hp. rewrite Forall_forall in H. apply H, Hp.
Qed.

Lemma win_sizes_positive (pnl : Series) :
  Forall (fun n => (1 <= n)%nat) (win_streak_sizes pnl).
Proof.
  rewrite win_streak_sizes_runs. apply run_lengths_positive, runs_positive.
Qed.

Lemma loss_sizes_positive (pnl : Series) :
  Forall (fun n => (1 <= n)%nat) (loss_streak_sizes pnl).
Proof.
  rewrite loss_streak_sizes_runs. apply run_lengths_positive, runs_positive.
Qed.

Lemma Qratio_bounds (k n : Q) :
  0 < n -> 0 <= k -> k <= n -> 0 <= k / n <= 1 /\ k / n * n == k.
Proof.
  intros Hn Hk0 Hkn. split; [split|field; lra].
  - apply Qle_shift_div_l; [exact Hn|lra].
  - apply Qle_shift_div_r; [exact Hn|lra].
Qed.

(** X18.  On a table that is not empty the win rate is a number between 0 and
    1; times the number of rows it is the number of rows with 盈亏 above 0,
    which is also the total length of the winning streaks; and it is 0 exactly
    when the longest winning streak is NaN. *)
Theorem winrate_counts_winners (pnl : Series) :
  pnl <> [] ->
  exists w, winrate pnl = Some w /\ 0 <= w <= 1 /\
    w * inject_Z (Z.of_nat (length pnl))
      == inject_Z (Z.of_nat (length (winners pnl))) /\
    list_sum (win_streak_sizes pnl) = length (winners pnl) /\
    (w == 0 <-> max_win_streak pnl = None).
Proof.
  intros Hne. unfold winrate. destruct pnl as [|x pnl]; [congruence|].
  set (rows := x :: pnl) in *. fold (winners rows).
  set (n := inject_Z (Z.of_nat (length rows))).
  set (k := inject_Z (Z.of_nat (length (winners rows)))).
  assert (Hn : 0 < n).
  { unfold n. change 0 with (inject_Z 0). rewrite <- Zlt_Qlt.
    unfold rows. simpl length. lia. }
  assert (Hk0 : 0 <= k).
  { unfold k. change 0 with (inject_Z 0). rewrite <- Zle_Qle. lia. }
  assert (Hkn : k <= n).
  { unfold k, n. rewrite <- Zle_Qle. apply inj_le. unfold winners.
    apply filter_length_le. }
  exists (k / n). split; [reflexivity|].
  destruct (Qratio_bounds k n Hn Hk0 Hkn) as (Hb & Hmul).
  split; [exact Hb|split; [exact Hmul|split; [apply win_streak_total|]]].
  unfold max_win_streak. rewrite imax_None. split.
  - intros Hz. apply list_sum_zero_positive; [apply win_sizes_positive|].
    rewrite win_streak_total.
    assert (Hk : k == 0) by (rewrite <- Hmul, Hz; ring).
    unfold k in Hk. change 0 with (inject_Z 0) in Hk.
    rewrite inject_Z_injective in Hk. lia.
  - intros Hnil. pose proof (win_streak_total rows) as Ht.
    rewrite Hnil in Ht. change (list_sum []) with 0%nat in Ht.
    unfold k. rewrite <- Ht. change (inject_Z (Z.of_nat 0)) with 0.
    unfold Qdiv. ring.
Qed.

Lemma winrate_counts_winners_witness :
  exists w, winrate [Some 10; Some (-5); None; Some 7] = Some w /\ 0 <= w <= 1 /\
    w * inject_Z (Z.of_nat (length [Some 10; Some (-5); None; Some 7]))
      == inject_Z (Z.of_nat (length (winners [Some 10; Some (-5); None; Some 7]))) /\
    list_sum (win_streak_sizes [Some 10; Some (-5); None; Some 7])
      = length (winners [Some 10; Some (-5); None; Some 7]) /\
    (w == 0 <-> max_win_streak [Some 10; Some (-5); None; Some 7] = None).
Proof.
  apply (winrate_counts_winners [Some 10; Some (-5); None; Some 7]).
  discriminate.
Defined.

(** X20.  When both are numbers, the longest winning and the longest losing
    streak are at least 1, the first is at most the number of rows with 盈亏
    above 0, the second at most the number of the other rows, and together
    they are at most the number of rows. *)
Theorem max_streak_bounds (pnl : Series) (m l : nat) :
  max_win_streak pnl = Some m ->
  max_loss_streak pnl = Some l ->
  (1 <= m <= length (winners pnl))%nat /\
  (1 <= l <= length pnl - length (winners pnl))%nat /\
  (m + l <= length pnl)%nat.
Proof.
  unfold max_win_streak, max_loss_streak. intros Hm Hl.
  apply imax_spec in Hm. apply imax_spec in Hl.
  destruct Hm as [Hm _]. destruct Hl as [Hl _].
  pose proof (In_le_list_sum _ _ Hm) as Hm'.
  pose proof (In_le_list_sum _ _ Hl) as Hl'.
  pose proof (win_sizes_positive pnl) as Hwp.
  pose proof (loss_sizes_positive pnl) as Hlp.
  rewrite Forall_forall in Hwp, Hlp.
  specialize (Hwp m Hm). specialize (Hlp l Hl).
  rewrite win_streak_total in Hm'.
  pose proof (loss_streak_total pnl). lia.
Qed.

Lemma max_streak_bounds_witness :
  let pnl : Series :=
    [Some 10; Some (-5); Some (-3); Some 7; Some 7; Some (-1)] in
  (1 <= 2 <= length (winners pnl))%nat /\
  (1 <= 2 <= length pnl - length (winners pnl))%nat /\
  (2 + 2 <= length pnl)%nat.
Proof.
  cbv zeta.
  apply (max_streak_bounds
           [Some 10; Some (-5); Some (-3); Some 7; Some 7; Some (-1)] 2 2);
    reflexivity.
Defined.

(** *** The running sum and the drawdown *)

Lemma dropna_cumsum_sums (s : Series) : forall acc,
  dropna (cumsum_from acc s) = sums acc (dropna s).
Proof.
  induction s as [|[q|] s IH]; intros acc; simpl; [reflexivity| |apply IH].
  f_equal. apply IH.
Qed.

Lemma last_sums (l : list Q) : forall acc d,
  l <> [] -> last (sums acc l) d == acc + Qsum l.
Proof.
  induction l as [|x l IH]; intros acc d Hne; [congruence|].
  destruct l as [|y l].
  - simpl. ring.
  - change (last (sums acc (x :: y :: l)) d)
      with (last (sums (acc + x) (y :: l)) d).
    rewrite IH by discriminate. simpl. ring.
Qed.

(** X24.  When some 盈亏 is a number, the last number of 累计盈亏 is the sum
    of all the 盈亏 that are numbers. *)
Theorem cumulative_pnl_last (pnl : Series) :
  dropna pnl <> [] ->
  last (dropna (cumulative_pnl pnl)) 0 == Qsum (dropna pnl).
Proof.
  intros Hne. unfold cumulative_pnl, cumsum.
  rewrite dropna_cumsum_sums, last_sums by exact Hne. ring.
Qed.

Lemma cumulative_pnl_last_witness :
  last (dropna (cumulative_pnl [Some 10; None; Some (-5); Some 7; None])) 0
  == Qsum (dropna [Some 10; None; Some (-5); Some 7; None]).
Proof.
  apply (cumulative_pnl_last [Some 10; None; Some (-5); Some 7; None]).
  discriminate.
Defined.

Lemma sums_sorted_iff (t : list Q) : forall a,
  Sorted Qle (a :: sums a t) <-> Forall (fun y => 0 <= y) t.
Proof.
  induction t as [|y t IH]; intros a; cbn [sums].
  - split; intros _; repeat constructor.
  - split.
    + intros H. inversion H as [|? ? Hs Hh]; subst.
      inversion Hh as [|? ? Hle]; subst.
      constructor; [cbv beta; lra|]. apply (IH (a + y)). exact Hs.
    + intros H. inversion H as [|? ? Hy Hrest]; subst. cbv beta in Hy.
      constructor; [apply IH; exact Hrest|]. constructor. lra.
Qed.

(** X21.  When no 盈亏 after the first one that is a number is below 0, the
    maximum drawdown is 0, whatever the first one is: a loss on the first
    trade is not a drawdown. *)
Theorem max_drawdown_zero_without_later_loss (pnl : Series) (x : Q) (t : list Q) :
  dropna pnl = x :: t ->
  Forall (fun y => 0 <= y) t ->
  exists d, max_drawdown pnl = Some d /\ d == 0.
Proof.
  intros H Ht. unfold max_drawdown, smin, drawdowns.
  rewrite dropna_ssub_cummax. unfold cumulative_pnl, cumsum.
  rewrite dropna_cumsum_sums, H. cbn [sums].
  eexists. split; [reflexivity|].
  assert (Hxx : (0 + x) - (0 + x) <= 0) by lra.
  apply (fold_Qmin_zero_iff _ _ Hxx (declines_nonpos _ _)).
  split; [lra|]. apply declines_zero_iff, sums_sorted_iff. exact Ht.
Qed.

Lemma max_drawdown_zero_without_later_loss_witness :
  exists d, max_drawdown [Some (-9); None; Some 4; Some 0] = Some d /\ d == 0.
Proof.
  apply (max_drawdown_zero_without_later_loss
           [Some (-9); None; Some 4; Some 0] (-9) [4; 0]).
  - reflexivity.
  - repeat constructor; cbv beta; lra.
Defined.

(** X26.  The maximum drawdown is NaN exactly when no 盈亏 is a number, the
    table with no row included. *)
Theorem max_drawdown_nan_iff (pnl : Series) :
  max_drawdown pnl = NaN <-> Forall (fun x => x = None) pnl.
Proof.
  unfold max_drawdown, smin, drawdowns.
  rewrite dropna_ssub_cummax. unfold cumulative_pnl, cumsum.
  rewrite dropna_cumsum_sums.
  assert (Hnull : dropna pnl = [] <-> Forall (fun x => x = None) pnl).
  { induction pnl as [|[q|] pnl IH]; simpl.
    - split; [constructor|reflexivity].
    - split; [discriminate|]. intros H. inversion H; subst. discriminate.
    - rewrite IH. split; [intros H; constructor; auto|].
      intros H. inversion H; subst. assumption. }
  rewrite <- Hnull.
  destruct (dropna pnl) as [|x t]; cbn [sums].
  - split; reflexivity.
  - split; discriminate.
Qed.

End MetricFacts.

(** ** The labels *)

Module LangFacts.
Import Normalizer Page Lang.

Local Open Scope string_scope.

(** X25.  Whichever language is chosen, one the select box offers or the one
    the stand-in side bar answers, line 83 finds its table, the table has
    every label the page reads, and its text for line 129 holds the field
    [{count}] and no other field. *)
Theorem labels_defined (lang_choice : string) :
  In lang_choice (dummy_selectbox :: language_options) ->
  exists lng, getitem lang_choice LANG_OPTIONS = Some lng /\
    Forall (fun k => exists v, getitem k lng = Some v) page_labels /\
    exists text, getitem "load_success" lng = Some text /\
                 contains "{count}" text = true /\
                 count_char "{" text = 1%nat.
Proof.
  intros [<-|[<-|[<-|[]]]];
    (eexists; split; [vm_compute; reflexivity|];
     split; [repeat constructor; eexists; reflexivity|];
     eexists; split; [reflexivity|split; reflexivity]).
Qed.

Lemma labels_defined_witness :
  exists lng, getitem "English" LANG_OPTIONS = Some lng /\
    Forall (fun k => exists v, getitem k lng = Some v) page_labels /\
    exists text, getitem "load_success" lng = Some text /\
                 contains "{count}" text = true /\
                 count_char "{" text = 1%nat.
Proof.
  apply (labels_defined "English"). right. right. left. reflexivity.
Defined.

End LangFacts.
